(** * Pairs-trading backtest (Trader.py): a shallow embedding and its properties

  The Python program works on pandas Series of IEEE binary64 numbers.  The
  embedding keeps the arithmetic abstract behind the interface [Numeric], so
  that every structural theorem holds for any arithmetic, the rounding one of
  the machine included, and provides the instance the program runs on:
  [float] (binary64, the arithmetic of numpy).

  What the program gets from pandas and statsmodels (mean, std, the OLS fit,
  the ADF test) is no code of the repository; it enters through the
  interfaces [Moments], [Regression] and [Stationarity]. *)

From Stdlib Require Import List ZArith Bool String Ascii Lia.
From Stdlib Require Import PrimFloat Uint63 SpecFloat FloatAxioms Sorted.
Import ListNotations.

Set Implicit Arguments.
Local Open Scope nat_scope.
Local Open Scope list_scope.

(** ** Python outcomes: a value or a raised exception *)

Inductive exn : Type :=
| KeyError
| TypeError.

Inductive result (A : Type) : Type :=
| Ok (a : A)
| Raise (e : exn).

Arguments Ok {A} a.
Arguments Raise {A} e.

Definition bind {A B : Type} (r : result A) (k : A -> result B) : result B :=
match r with
| Ok a => k a
| Raise e => Raise e
end.

Notation "x <- c ;; k" := (bind c (fun x => k))
(at level 61, c at next level, right associativity).

(** ** The arithmetic interface

  [lt a b] is Python's [a < b]; [a > b] is read as [b < a].  [of_int] is the
  conversion of a Python int, [point_one] the literal [0.1]. *)

Class Numeric (num : Type) : Type := {
add : num -> num -> num;
sub : num -> num -> num;
mul : num -> num -> num;
div : num -> num -> num;
neg : num -> num;
lt : num -> num -> bool;
of_int : Z -> num;
point_one : num
}.

Definition gt {num : Type} {NUM : Numeric num} (a b : num) : bool := lt b a.

(** pandas: [Series.mean()] and [Series.std()] (sample standard deviation). *)
Class Moments (num : Type) : Type := {
series_mean : list num -> num;
series_std : list num -> num
}.

(** statsmodels: [sm.OLS(y, sm.add_constant(x)).fit().params], the pair
  (intercept, slope) of the least-squares line of [y] on [x]. *)
Class Regression (num : Type) : Type := {
ols_params : list num -> list num -> num * num
}.

(** statsmodels: [adfuller(resid)[1]], the p-value of the ADF test. *)
Class Stationarity (num : Type) : Type := {
adfuller_pvalue : list num -> num
}.

(** ** Series

  A pandas Series is a list of (label, value) rows; labels are timestamps,
  here integers.  Every Series arithmetic of the program combines two
  columns of one aligned frame (main, lines 326-327), so operands carry the
  same index and pandas works row by row. *)

Definition Timestamp : Type := Z.

Definition Series (num : Type) : Type := list (Timestamp * num).

Section SeriesOps.
Context {num : Type}.

Definition index (s : Series num) : list Timestamp := map fst s.
Definition values (s : Series num) : list num := map snd s.

Definition series_map (f : num -> num) (s : Series num) : Series num :=
  map (fun r => (fst r, f (snd r))) s.

Fixpoint series_zip (f : num -> num -> num) (a b : Series num) : Series num :=
  match a, b with
  | (t, u) :: a', (_, v) :: b' => (t, f u v) :: series_zip f a' b'
  | _, _ => []
  end.

(** [s.loc[d]]: the value at label [d]; a Series of the matching rows when
    the label occurs more than once; KeyError when it does not occur. *)
Inductive loc_result : Type :=
| Scalar (v : num)
| Slice (rows : Series num).

Definition loc (s : Series num) (d : Timestamp) : result loc_result :=
  match filter (fun r => Z.eqb (fst r) d) s with
  | [] => Raise KeyError
  | [r] => Ok (Scalar (snd r))
  | rs => Ok (Slice rs)
  end.
End SeriesOps.

(** ** compute_spread (lines 92-97) *)

Section Spread.
Context {num : Type} {NUM : Numeric num} {REG : Regression num}.

Definition compute_spread (x y : Series num) : Series num * num :=
  let beta := snd (ols_params (values x) (values y)) in
  let spread := series_zip sub y (series_map (mul beta) x) in
  (spread, beta).
End Spread.

(** ** backtest_pair (lines 124-186) *)

Record Trade (num : Type) : Type := {
tr_entry_date : Timestamp;
tr_exit_date : Timestamp;
tr_position : string;
tr_entry_spread : num;
tr_exit_spread : num;
tr_profit : num;
tr_entry_z : loc_result (num := num);
tr_exit_z : num
}.

(** The local variables of the loop.  [position] is the Python int: 0 flat,
  +1 long spread, -1 short spread. *)
Record state (num : Type) : Type := {
position : Z;
entry_price : option num;
entry_date : option Timestamp;
capital : num;
trades : list (Trade num);
pnl : list num
}.

Definition FLAT : Z := 0%Z.
Definition LONG_SPREAD : Z := 1%Z.
Definition SHORT_SPREAD : Z := (-1)%Z.

Record Backtest (num : Type) : Type := {
bt_pnl : list num;
bt_spread : Series num;
bt_z : Series num;
bt_beta : num;
bt_trades : list (Trade num)
}.

Section BacktestLoop.
Context {num : Type} {NUM : Numeric num} {MOM : Moments num}.
Variables (spread z : Series num).
Variables (cash entry_z exit_z : num).

Definition size : num := mul cash point_one.

Definition initial : state num :=
  {| position := 0%Z; entry_price := None; entry_date := None;
     capital := cash; trades := []; pnl := [cash] |}.

Definition enter (st : state num) (p : Z) (t : Timestamp) (s_i : num) : state num :=
  {| position := p; entry_price := Some s_i; entry_date := Some t;
     capital := capital st; trades := trades st; pnl := pnl st |}.

(** The two closing branches (lines 151-165 and 168-182): they differ in
    the sign of the move and in the label. *)
Definition close (st : state num) (label : string) (move : num -> num -> num)
    (t : Timestamp) (s_i z_i : num) : result (state num) :=
  match entry_price st with
  | None => Raise TypeError
  | Some ep =>
      let profit := mul (move s_i ep) (div size (series_std (values spread))) in
      let capital' := add (capital st) profit in
      match entry_date st with
      | None => Raise KeyError
      | Some ed =>
          ez <- loc z ed ;;
          Ok {| position := 0%Z; entry_price := None; entry_date := None;
                capital := capital';
                trades := trades st ++
                  [ {| tr_entry_date := ed; tr_exit_date := t;
                       tr_position := label;
                       tr_entry_spread := ep; tr_exit_spread := s_i;
                       tr_profit := profit;
                       tr_entry_z := ez; tr_exit_z := z_i |} ];
                pnl := pnl st |}
      end
  end.

Definition record_pnl (st : state num) : state num :=
  {| position := position st; entry_price := entry_price st;
     entry_date := entry_date st; capital := capital st;
     trades := trades st; pnl := pnl st ++ [capital st] |}.

(** The trading logic of one iteration (lines 140-182), at the row
    [(spread.index[i], spread.iloc[i], z.iloc[i])]. *)
Definition trade_logic (st : state num) (t : Timestamp) (s_i z_i : num)
    : result (state num) :=
  if (position st =? 0)%Z then
    if gt z_i entry_z then Ok (enter st (-1)%Z t s_i)
    else if lt z_i (neg entry_z) then Ok (enter st 1%Z t s_i)
    else Ok st
  else if ((position st =? 1)%Z && gt z_i (neg exit_z))%bool then
    close st "LONG" (fun s_exit s_entry => sub s_exit s_entry) t s_i z_i
  else if ((position st =? -1)%Z && lt z_i exit_z)%bool then
    close st "SHORT" (fun s_exit s_entry => sub s_entry s_exit) t s_i z_i
  else Ok st.

(** One iteration: the trading logic, then [pnl.append(capital)]. *)
Definition body (st : state num) (row : Timestamp * num * num) : result (state num) :=
  let '(t, s_i, z_i) := row in
  st' <- trade_logic st t s_i z_i ;;
  Ok (record_pnl st').

Fixpoint loop (st : state num) (rows : list (Timestamp * num * num))
    : result (state num) :=
  match rows with
  | [] => Ok st
  | row :: rest => st' <- body st row ;; loop st' rest
  end.

(** The rows the loop reads: [spread] and [z] side by side.  [range(1,
    len(z))] starts at the second row. *)
Definition rows : list (Timestamp * num * num) :=
  map (fun r => (fst (fst r), snd (fst r), snd r)) (combine spread (values z)).

Definition simulate : result (state num) := loop initial (tl rows).
End BacktestLoop.

Section BacktestPair.
Context {num : Type} {NUM : Numeric num} {MOM : Moments num} {REG : Regression num}.

Definition zscore (spread : Series num) : Series num :=
  let m := series_mean (values spread) in
  let sd := series_std (values spread) in
  series_map (fun s => div (sub s m) sd) spread.

Definition backtest_pair (x y : Series num) (cash entry_z exit_z : num)
    : result (Backtest num) :=
  let '(spread, beta) := compute_spread x y in
  let z := zscore spread in
  st <- simulate spread z cash entry_z exit_z ;;
  Ok {| bt_pnl := pnl st; bt_spread := spread; bt_z := z;
        bt_beta := beta; bt_trades := trades st |}.
End BacktestPair.

(** ** safe_price (lines 50-56)

  A DataFrame is a list of named columns over one index; a missing value
  (NaN) is [None].  A column name is a string of code points below 256, one
  [ascii] each (Latin-1), and names are distinct once normalised.
  [safe_price] also stores the normalised names back into the frame; the
  normalisation is idempotent, so the stored names change no later call. *)

Definition Column (num : Type) : Type := list (Timestamp * option num).

Definition DataFrame (num : Type) : Type := list (string * Column num).

(** [str.lower()] on one code point below 256: the letters A-Z and the
  capital letters U+00C0-U+00DE (the multiplication sign U+00D7 is none)
  move up by 32; every other code point is kept. *)
Definition lower_char (c : ascii) : ascii :=
let n := nat_of_ascii c in
if (((65 <=? n) && (n <=? 90))
    || ((192 <=? n) && (n <=? 222) && negb (n =? 215)))%bool
then ascii_of_nat (n + 32) else c.

Fixpoint lower (s : string) : string :=
match s with
| EmptyString => EmptyString
| String c s' => String (lower_char c) (lower s')
end.

(** The code points below 256 that [str.strip()] removes, those for which
  [str.isspace()] holds: U+0009-U+000D, U+001C-U+0020, U+0085 and U+00A0. *)
Definition is_space (c : ascii) : bool :=
let n := nat_of_ascii c in
(((9 <=? n) && (n <=? 13)) || ((28 <=? n) && (n <=? 32))
 || (n =? 133) || (n =? 160))%bool.

Fixpoint lstrip (s : string) : string :=
match s with
| EmptyString => EmptyString
| String c s' => if is_space c then lstrip s' else s
end.

Fixpoint rstrip (s : string) : string :=
match s with
| EmptyString => EmptyString
| String c s' =>
    match rstrip s' with
    | EmptyString => if is_space c then EmptyString else String c EmptyString
    | r => String c r
    end
end.

Definition strip (s : string) : string := rstrip (lstrip s).

Section SafePrice.
Context {num : Type}.

Definition normalise (df : DataFrame num) : DataFrame num :=
  map (fun c => (strip (lower (fst c)), snd c)) df.

Fixpoint column (key : string) (df : DataFrame num) : option (Column num) :=
  match df with
  | [] => None
  | (name, c) :: df' => if String.eqb key name then Some c else column key df'
  end.

Definition dropna (c : Column num) : Series num :=
  flat_map (fun r => match snd r with
                     | Some v => [(fst r, v)]
                     | None => []
                     end) c.

Definition safe_price (df : DataFrame num) : result (Series num) :=
  let df' := normalise df in
  match column "adj close" df' with
  | Some c => Ok (dropna c)
  | None =>
      match column "close" df' with
      | Some c => Ok (dropna c)
      | None => Raise KeyError
      end
  end.

(** [pd.concat([s_a, s_b], axis=1).dropna()]: the rows at the labels both
    series have, for labels that are distinct and increasing. *)
Definition concat_dropna (s_a s_b : Series num) : list (Timestamp * num * num) :=
  flat_map (fun r => match find (fun r' => Z.eqb (fst r') (fst r)) s_b with
                     | Some r' => [(fst r, snd r, snd r')]
                     | None => []
                     end) s_a.
End SafePrice.

(** ** find_cointegrated_pairs (lines 62-86) *)

Definition Candidate (num : Type) : Type := (string * string * num)%type.

Section Scan.
Context {num : Type} {NUM : Numeric num} {REG : Regression num}
        {ADF : Stationarity num}.

Definition adf_p_of (c : Candidate num) : num := snd c.

(** [model.resid]: the response minus the fitted line. *)
Definition residuals (x y : list num) : list num :=
  let '(const, slope) := ols_params x y in
  map (fun p => sub (snd p) (add const (mul slope (fst p)))) (combine x y).

(** [candidates.sort(key=lambda x: x[2])]: a stable sort that compares keys
    with [<] only; each element goes after the elements not greater than
    it. *)
Fixpoint insert_candidate (c : Candidate num) (l : list (Candidate num))
    : list (Candidate num) :=
  match l with
  | [] => [c]
  | d :: l' =>
      if lt (adf_p_of c) (adf_p_of d) then c :: d :: l'
      else d :: insert_candidate c l'
  end.

Definition sort_candidates (l : list (Candidate num)) : list (Candidate num) :=
  fold_left (fun acc c => insert_candidate c acc) l [].

Variables (significance : num) (max_pairs : Z).

Definition full (candidates : list (Candidate num)) : bool :=
  (max_pairs <=? Z.of_nat (List.length candidates))%Z.

(** The test of one pair (lines 70-80): [None] when the pair is skipped
    for lack of data, else the candidates after the test. *)
Definition test_pair (a b : string * DataFrame num)
    (candidates : list (Candidate num)) : result (option (list (Candidate num))) :=
  s_a <- safe_price (snd a) ;;
  s_b <- safe_price (snd b) ;;
  let df := concat_dropna s_a s_b in
  if List.length df <? 250 then Ok None
  else
    let x := map (fun r => snd (fst r)) df in
    let y := map (fun r => snd r) df in
    let adf_p := adfuller_pvalue (residuals x y) in
    if lt adf_p significance
    then Ok (Some (candidates ++ [(fst a, fst b, adf_p)]))
    else Ok (Some candidates).

(** The inner loop over [j] (lines 68-82), for a fixed [a = keys[i]]. *)
Fixpoint inner_loop (a : string * DataFrame num)
    (rest : list (string * DataFrame num))
    (candidates : list (Candidate num)) : result (list (Candidate num)) :=
  match rest with
  | [] => Ok candidates
  | b :: rest' =>
      tested <- test_pair a b candidates ;;
      match tested with
      | None => inner_loop a rest' candidates
      | Some candidates' =>
          if full candidates' then Ok candidates'
          else inner_loop a rest' candidates'
      end
  end.

(** The outer loop over [i] (lines 67-84). *)
Fixpoint outer_loop (keys : list (string * DataFrame num))
    (candidates : list (Candidate num)) : result (list (Candidate num)) :=
  match keys with
  | [] => Ok candidates
  | a :: rest =>
      candidates' <- inner_loop a rest candidates ;;
      if full candidates' then Ok candidates'
      else outer_loop rest candidates'
  end.

End Scan.

(** [data_dict] is the dict in insertion order, keys distinct. *)
Definition find_cointegrated_pairs {num : Type} {NUM : Numeric num}
  {REG : Regression num} {ADF : Stationarity num}
  (data_dict : list (string * DataFrame num))
  (significance : num) (max_pairs : Z) : result (list (Candidate num)) :=
candidates <- outer_loop significance max_pairs data_dict [] ;;
Ok (sort_candidates candidates).

(** ** What the scan promises about its candidates *)

Section ScanShapes.
Context {num : Type} {NUM : Numeric num} {REG : Regression num}
        {ADF : Stationarity num}.

Definition has_price (df : DataFrame num) : Prop :=
  exists s, safe_price df = Ok s.

(** A candidate of the universe [data_dict]: two of its instruments whose
    prices align on at least 250 timestamps and whose residual p-value is
    below the significance level. *)
Definition eligible (data_dict : list (string * DataFrame num))
    (significance : num) (c : Candidate num) : Prop :=
  exists df_a df_b s_a s_b,
    In (fst (fst c), df_a) data_dict /\ In (snd (fst c), df_b) data_dict /\
    safe_price df_a = Ok s_a /\ safe_price df_b = Ok s_b /\
    250 <= List.length (concat_dropna s_a s_b) /\
    snd c = adfuller_pvalue
              (residuals (map (fun r => snd (fst r)) (concat_dropna s_a s_b))
                         (map (fun r => snd r) (concat_dropna s_a s_b))) /\
    lt (snd c) significance = true.

(** Non-decreasing p-values: no candidate is followed by one with a
    smaller p-value. *)
Definition sorted_by_pvalue (l : list (Candidate num)) : Prop :=
  Sorted (fun c d => lt (adf_p_of d) (adf_p_of c) = false) l.
End ScanShapes.

(** The one law of [<] the sort relies on; it holds of any order, and of
  binary64 comparison with NaN as well. *)
Class Asymmetric (num : Type) {NUM : Numeric num} : Prop :=
lt_asym : forall a b : num, lt a b = true -> lt b a = false.

Arguments Asymmetric num {NUM}.

(** ** Reference implementations of the library interfaces

  Textbook definitions over the arithmetic interface, with sums taken from
  left to right: the mean, and the least-squares line in closed form
  (slope = Sxy / Sxx, intercept = mean y - slope * mean x). *)

Section Reference.
Context {num : Type} {NUM : Numeric num}.

Definition total (l : list num) : num := fold_left add l (of_int 0).

Definition mean_of (l : list num) : num :=
  div (total l) (of_int (Z.of_nat (List.length l))).

Definition sq_dev (m v : num) : num := mul (sub v m) (sub v m).

Definition ols_closed_form (x y : list num) : num * num :=
  let mx := mean_of x in
  let my := mean_of y in
  let sxy := total (map (fun p => mul (sub (fst p) mx) (sub (snd p) my)) (combine x y)) in
  let sxx := total (map (sq_dev mx) x) in
  let slope := div sxy sxx in
  (sub my (mul slope mx), slope).
End Reference.

(** ** The binary64 instance: the arithmetic the program runs on *)

Module Binary64.
Definition float_of_int (n : Z) : float :=
  if (n <? 0)%Z then PrimFloat.opp (PrimFloat.of_uint63 (Uint63.of_Z (- n)))
  else PrimFloat.of_uint63 (Uint63.of_Z n).

#[global] Instance numeric : Numeric float := {|
  add := PrimFloat.add;
  sub := PrimFloat.sub;
  mul := PrimFloat.mul;
  div := PrimFloat.div;
  neg := PrimFloat.opp;
  lt := PrimFloat.ltb;
  of_int := float_of_int;
  point_one := 0x1.999999999999ap-4%float
|}.

(** pandas [nanvar] with ddof = 1: NaN below two observations, else the
    squared deviations from the mean summed and divided by n - 1. *)
Definition float_std (l : list float) : float :=
  if (List.length l <=? 1)%nat then PrimFloat.nan
  else
    let m := mean_of l in
    PrimFloat.sqrt
      (PrimFloat.div (total (map (sq_dev m) l))
                     (float_of_int (Z.of_nat (List.length l) - 1))).

#[global] Instance moments : Moments float := {|
  series_mean := mean_of;
  series_std := float_std
|}.

#[global] Instance regression : Regression float := {|
  ols_params := ols_closed_form
|}.
End Binary64.

(** ** The state machine of the specification

  The transition rules as the specification words them, each with its guard
  and its effect on the position, the entry context, the capital and the
  ledger.  [transition] holds between the state before a step, the row of
  the step and the state after it. *)

Section StateMachine.
Context {num : Type} {NUM : Numeric num}.
Variables (entry_threshold exit_threshold : num).

Definition opens (p : Z) (st : state num) (t : Timestamp) (s_t : num)
    (st' : state num) : Prop :=
  position st' = p /\
  entry_price st' = Some s_t /\ entry_date st' = Some t /\
  capital st' = capital st /\ trades st' = trades st.

Definition closes (direction : string) (st : state num) (t : Timestamp)
    (s_t : num) (st' : state num) : Prop :=
  position st' = FLAT /\
  entry_price st' = None /\ entry_date st' = None /\
  exists tr : Trade num,
    trades st' = trades st ++ [tr] /\
    capital st' = add (capital st) (tr_profit tr) /\
    tr_position tr = direction /\
    Some (tr_entry_date tr) = entry_date st /\ tr_exit_date tr = t /\
    Some (tr_entry_spread tr) = entry_price st /\ tr_exit_spread tr = s_t.

Definition persists (st st' : state num) : Prop :=
  position st' = position st /\
  entry_price st' = entry_price st /\ entry_date st' = entry_date st /\
  capital st' = capital st /\ trades st' = trades st.

(** Whether one of the four rules applies in state [st] at z-score [z_t]. *)
Definition rule_applies (st : state num) (z_t : num) : bool :=
  ((position st =? FLAT)%Z &&
     (gt z_t entry_threshold || lt z_t (neg entry_threshold)))
  || ((position st =? LONG_SPREAD)%Z && gt z_t (neg exit_threshold))
  || ((position st =? SHORT_SPREAD)%Z && lt z_t exit_threshold).

Inductive transition (st : state num) (t : Timestamp) (s_t z_t : num)
    (st' : state num) : Prop :=
| flat_to_short :
    position st = FLAT -> gt z_t entry_threshold = true ->
    opens SHORT_SPREAD st t s_t st' -> transition st t s_t z_t st'
| flat_to_long :
    position st = FLAT -> lt z_t (neg entry_threshold) = true ->
    opens LONG_SPREAD st t s_t st' -> transition st t s_t z_t st'
| long_to_flat :
    position st = LONG_SPREAD -> gt z_t (neg exit_threshold) = true ->
    closes "LONG" st t s_t st' -> transition st t s_t z_t st'
| short_to_flat :
    position st = SHORT_SPREAD -> lt z_t exit_threshold = true ->
    closes "SHORT" st t s_t st' -> transition st t s_t z_t st'
| no_transition :
    rule_applies st z_t = false ->
    persists st st' -> transition st t s_t z_t st'.

(** A run of the machine over consecutive rows. *)
Inductive follows : state num -> list (Timestamp * num * num) -> state num -> Prop :=
| follows_nil st : follows st [] st
| follows_step st t s_t z_t st' rest st'' :
    transition st t s_t z_t st' -> follows st' rest st'' ->
    follows st ((t, s_t, z_t) :: rest) st''.
End StateMachine.

(** ** Invariants of the loop *)

Section Invariants.
Context {num : Type}.

(** An open position carries its entry price and an entry date that is a
    label of the z-score series. *)
Definition well_formed (z : Series num) (st : state num) : Prop :=
  position st = 0%Z \/
  exists ep ed, entry_price st = Some ep /\ entry_date st = Some ed /\
                In ed (index z).

Definition row_in (z : Series num) (row : Timestamp * num * num) : Prop :=
  In (fst (fst row)) (index z).
End Invariants.

(** ** What one iteration does, case by case

  [settle st tr] is the state after a closing branch that appended [tr];
  [closing] relates the appended trade to the state and row it was built
  from; [body_case] lists the four outcomes of an iteration. *)

Section Cases.
Context {num : Type} {NUM : Numeric num} {MOM : Moments num}.
Variables (spread z : Series num).
Variables (cash entry_z exit_z : num).

Definition settle (st : state num) (tr : Trade num) : state num :=
  {| position := 0%Z; entry_price := None; entry_date := None;
     capital := add (capital st) (tr_profit tr);
     trades := trades st ++ [tr]; pnl := pnl st |}.

Definition quantity : num := div (mul cash point_one) (series_std (values spread)).

Definition closing (st : state num) (t : Timestamp) (s_i z_i : num)
    (tr : Trade num) : Prop :=
  entry_date st = Some (tr_entry_date tr) /\
  entry_price st = Some (tr_entry_spread tr) /\
  tr_exit_date tr = t /\ tr_exit_spread tr = s_i /\ tr_exit_z tr = z_i /\
  loc z (tr_entry_date tr) = Ok (tr_entry_z tr) /\
  ((position st = 1%Z /\ gt z_i (neg exit_z) = true /\
    tr_position tr = "LONG"%string /\
    tr_profit tr = mul (sub s_i (tr_entry_spread tr)) quantity)
   \/
   (position st = (-1)%Z /\ lt z_i exit_z = true /\
    tr_position tr = "SHORT"%string /\
    tr_profit tr = mul (sub (tr_entry_spread tr) s_i) quantity)).

Inductive body_case (st : state num) (t : Timestamp) (s_i z_i : num)
    : state num -> Prop :=
| case_short :
    position st = 0%Z -> gt z_i entry_z = true ->
    body_case st t s_i z_i (record_pnl (enter st (-1)%Z t s_i))
| case_long :
    position st = 0%Z -> gt z_i entry_z = false ->
    lt z_i (neg entry_z) = true ->
    body_case st t s_i z_i (record_pnl (enter st 1%Z t s_i))
| case_close tr :
    closing st t s_i z_i tr ->
    body_case st t s_i z_i (record_pnl (settle st tr))
| case_stay :
    body_case st t s_i z_i (record_pnl st).

(** The profit formula of a ledger entry. *)
Definition priced (tr : Trade num) : Prop :=
  (tr_position tr = "LONG"%string /\
   tr_profit tr = mul (sub (tr_exit_spread tr) (tr_entry_spread tr))
                      (div (mul cash point_one) (series_std (values spread))))
  \/
  (tr_position tr = "SHORT"%string /\
   tr_profit tr = mul (sub (tr_entry_spread tr) (tr_exit_spread tr))
                      (div (mul cash point_one) (series_std (values spread)))).
End Cases.

(** ** Shapes of the outputs *)

Section Shapes.
Context {num : Type} {NUM : Numeric num}.

(** A realized-only equity curve: starting from capital [c], the value
    recorded at each timestamp is the previous one, or the previous one
    plus the profit of a ledger trade that exits at that timestamp. *)
Fixpoint realized_only (ledger : list (Trade num)) (ts : list Timestamp)
    (c : num) (caps : list num) : Prop :=
  match ts, caps with
  | [], [] => True
  | t :: ts', c' :: caps' =>
      (c' = c \/
       exists tr, In tr ledger /\ tr_exit_date tr = t /\
                  c' = add c (tr_profit tr))
      /\ realized_only ledger ts' c' caps'
  | _, _ => False
  end.

(** The dates of the ledger in order, entry then exit of each trade,
    followed by the entry date of the open position if there is one. *)
Definition ledger_dates (l : list (Trade num)) : list Timestamp :=
  flat_map (fun tr => [tr_entry_date tr; tr_exit_date tr]) l.

Definition open_date (st : state num) : list Timestamp :=
  match entry_date st with
  | Some ed => [ed]
  | None => []
  end.

Definition timeline (st : state num) : list Timestamp :=
  ledger_dates (trades st) ++ open_date st.

Definition valid_position (p : Z) : Prop :=
  p = FLAT \/ p = LONG_SPREAD \/ p = SHORT_SPREAD.
End Shapes.

(** ** Well-formed inputs

  The two series are columns of one frame ([aligned]) and timestamps are
  strictly increasing ([increasing]), as the data model demands of a
  price series. *)

Definition aligned {num : Type} (x y : Series num) : Prop := index x = index y.

Definition increasing {num : Type} (s : Series num) : Prop :=
StronglySorted Z.lt (index s).

(** ** Test vectors *)

Module Vectors.
Local Open Scope Z_scope.

(** Six daily observations of two instruments. *)
Definition demo_x : Series float :=
  [(1, 1%float); (2, 2%float); (3, 3%float);
   (4, 4%float); (5, 5%float); (6, 6%float)].

Definition demo_y : Series float :=
  [(1, 2%float); (2, 4.5%float); (3, 5%float);
   (4, 9%float); (5, 10%float); (6, 12%float)].

(** [flat_y] is exactly twice [demo_x]: the spread of the pair is constant. *)
Definition flat_y : Series float :=
  [(1, 2%float); (2, 4%float); (3, 6%float);
   (4, 8%float); (5, 10%float); (6, 12%float)].

Definition cash0 : float := 100000%float.
Definition entry0 : float := 1%float.
(** The binary64 number that the literal [0.2] denotes. *)
Definition exit0 : float := 0x1.999999999999ap-3%float.
(** The binary64 number that the literal [0.05] denotes. *)
Definition significance0 : float := 0x1.999999999999ap-5%float.

(** A stand-in for the ADF test that reports the same p-value for every
    residual series. *)
Definition oracle {num : Type} (p : num) : Stationarity num :=
  {| adfuller_pvalue := fun _ => p |}.

(** A frame with one price column named [name], [n] rows at timestamps
    0 .. n-1 and the price [f t] at timestamp [t]. *)
Definition frame {num : Type} (name : string) (n : nat) (f : Z -> num)
    : DataFrame num :=
  [("Volume"%string, map (fun i => (Z.of_nat i, None)) (seq 0 n));
   (name, map (fun i => (Z.of_nat i, Some (f (Z.of_nat i)))) (seq 0 n))].

(** A frame whose columns are neither an adjusted close nor a close. *)
Definition no_price_frame {num : Type} : DataFrame num :=
  [("Open"%string, []); ("Volume"%string, [])].

(** Two instruments with 250 common observations. *)
Definition long_universe : list (string * DataFrame float) :=
  [("A"%string, frame " Adj Close" 250 Binary64.float_of_int);
   ("B"%string, frame "Close" 250 (fun t => Binary64.float_of_int (2 * t + 1)))].

(** Three instruments, the last one without a price column. *)
Definition holed_universe : list (string * DataFrame float) :=
  [("A"%string, frame "Close" 3 Binary64.float_of_int);
   ("B"%string, frame "close " 3 Binary64.float_of_int);
   ("C"%string, no_price_frame)].

(** Three instruments with 250 common observations. *)
Definition wide_universe : list (string * DataFrame float) :=
  [("A"%string, frame " Adj Close" 250 Binary64.float_of_int);
   ("B"%string, frame "Close" 250 (fun t => Binary64.float_of_int (3 * t + t mod 7)));
   ("C"%string, frame "close" 250 (fun t => Binary64.float_of_int (2 * t + t mod 3)))].

(** A stand-in for the ADF test whose p-value depends on the residuals:
    their mean absolute value, divided by 64. *)
Definition residual_oracle : Stationarity float :=
  {| adfuller_pvalue := fun resid =>
       PrimFloat.div (mean_of (map PrimFloat.abs resid)) 64%float |}.

(** Twelve daily observations of two instruments: the spread of the pair
    swings below and above its mean. *)
Definition swing_x : Series float :=
  [(1, 1%float); (2, 2%float); (3, 3%float); (4, 4%float);
   (5, 5%float); (6, 6%float); (7, 7%float); (8, 8%float);
   (9, 9%float); (10, 10%float); (11, 11%float); (12, 12%float)].

Definition swing_y : Series float :=
  [(1, 2%float); (2, 2%float); (3, 5%float); (4, 7%float);
   (5, 10%float); (6, 14%float); (7, 13%float); (8, 16%float);
   (9, 18%float); (10, 21%float); (11, 22%float); (12, 25%float)].
End Vectors.

(** * Further properties: definitions *)

(** ** One iteration, with the guards that were tested

    [body_outcome] refines [body_case]: an iteration that changes nothing
    either waited flat (no entry rule fired) or held its position (the exit
    rule of the position did not fire). *)

Section Outcomes.
Context {num : Type} {NUM : Numeric num} {MOM : Moments num}.
Variables (spread z : Series num).
Variables (cash entry_z exit_z : num).

Definition entry_fires (z_i : num) : bool :=
  (gt z_i entry_z || lt z_i (neg entry_z))%bool.

Definition exit_fires (p : Z) (z_i : num) : bool :=
  (((p =? 1)%Z && gt z_i (neg exit_z)) || ((p =? -1)%Z && lt z_i exit_z))%bool.

Inductive body_outcome (st : state num) (t : Timestamp) (s_i z_i : num)
    : state num -> Prop :=
| outcome_short :
    position st = 0%Z -> gt z_i entry_z = true ->
    body_outcome st t s_i z_i (record_pnl (enter st (-1)%Z t s_i))
| outcome_long :
    position st = 0%Z -> gt z_i entry_z = false ->
    lt z_i (neg entry_z) = true ->
    body_outcome st t s_i z_i (record_pnl (enter st 1%Z t s_i))
| outcome_wait :
    position st = 0%Z -> entry_fires z_i = false ->
    body_outcome st t s_i z_i (record_pnl st)
| outcome_close tr :
    closing spread z cash exit_z st t s_i z_i tr ->
    body_outcome st t s_i z_i (record_pnl (settle st tr))
| outcome_hold :
    position st <> 0%Z -> exit_fires (position st) z_i = false ->
    body_outcome st t s_i z_i (record_pnl st).

(** The rule that opened a trade of a given direction, and the rule that
    closed it, as tests on a z-score. *)
Definition entry_rule (direction : string) (z_i : num) : Prop :=
  (direction = "SHORT"%string /\ gt z_i entry_z = true) \/
  (direction = "LONG"%string /\ gt z_i entry_z = false /\
   lt z_i (neg entry_z) = true).

Definition exit_test (direction : string) (z_i : num) : bool :=
  if String.eqb direction "LONG" then gt z_i (neg exit_z)
  else if String.eqb direction "SHORT" then lt z_i exit_z
  else false.

(** A trade traced to the rows it was made of: entered at row [r_in],
    held over the rows [mid], at none of which its exit test succeeded, and
    closed at row [r_out], the first row at which it did. *)
Definition traced (rs : list (Timestamp * num * num)) (tr : Trade num) : Prop :=
  exists pre r_in mid r_out post,
    rs = pre ++ r_in :: mid ++ r_out :: post /\
    tr_entry_date tr = fst (fst r_in) /\
    tr_entry_spread tr = snd (fst r_in) /\
    entry_rule (tr_position tr) (snd r_in) /\
    Forall (fun r => exit_test (tr_position tr) (snd r) = false) mid /\
    tr_exit_date tr = fst (fst r_out) /\
    tr_exit_spread tr = snd (fst r_out) /\
    tr_exit_z tr = snd r_out /\
    exit_test (tr_position tr) (snd r_out) = true.

(** The open position traced to the row it was entered at. *)
Definition open_traced (rs : list (Timestamp * num * num)) (st : state num) : Prop :=
  position st = 0%Z \/
  exists pre r_in mid direction,
    rs = pre ++ r_in :: mid /\
    entry_date st = Some (fst (fst r_in)) /\
    entry_price st = Some (snd (fst r_in)) /\
    ((position st = 1%Z /\ direction = "LONG"%string) \/
     (position st = (-1)%Z /\ direction = "SHORT"%string)) /\
    entry_rule direction (snd r_in) /\
    Forall (fun r => exit_test direction (snd r) = false) mid.
End Outcomes.

(** ** The pairs a scan can test *)

(** The unordered pairs of a list in scan order: each element with every
    later one. *)
Fixpoint all_pairs {A : Type} (l : list A) : list (A * A) :=
  match l with
  | [] => []
  | a :: rest => map (fun b => (a, b)) rest ++ all_pairs rest
  end.

(** [subseq l l']: [l] is [l'] with some elements left out. *)
Inductive subseq {A : Type} : list A -> list A -> Prop :=
| subseq_nil : subseq [] []
| subseq_skip a l l' : subseq l l' -> subseq l (a :: l')
| subseq_keep a l l' : subseq l l' -> subseq (a :: l) (a :: l').

Section Accepted.
Context {num : Type} {NUM : Numeric num} {REG : Regression num}
        {ADF : Stationarity num}.

(** The pair of instruments [a], [b] passes the test of the scan with
    p-value [p]. *)
Definition accepted (significance : num) (a b : string * DataFrame num)
    (p : num) : Prop :=
  exists s_a s_b,
    safe_price (snd a) = Ok s_a /\ safe_price (snd b) = Ok s_b /\
    250 <= List.length (concat_dropna s_a s_b) /\
    p = adfuller_pvalue
          (residuals (map (fun r => snd (fst r)) (concat_dropna s_a s_b))
                     (map (fun r => snd r) (concat_dropna s_a s_b))) /\
    lt p significance = true.
End Accepted.

(** ** main (lines 302-340), from the fetched data on

    What main computes once [fetch_history] has returned [data]: the scan,
    the choice of the first candidate, the backtest of that pair and the two
    series it hands to the plot.  Reading the inputs, printing and plotting
    are left out.  main calls the scan and the backtest with their default
    arguments (0.05, 10, 1.0, 0.2); the three that are not integers are
    parameters here. *)

Inductive raised : Type :=
| Exn (e : exn)
| ValueError.

Inductive attempt (A : Type) : Type :=
| Done (a : A)
| Failed (e : raised).

Arguments Done {A} a.
Arguments Failed {A} e.

Definition attempt_of {A : Type} (r : result A) : attempt A :=
  match r with
  | Ok a => Done a
  | Raise e => Failed (Exn e)
  end.

Definition and_then {A B : Type} (r : attempt A) (k : A -> attempt B) : attempt B :=
  match r with
  | Done a => k a
  | Failed e => Failed e
  end.

Record Report (num : Type) : Type := {
  rp_pair : Candidate num;
  rp_portfolio : Series num;
  rp_benchmark : Series num;
  rp_backtest : Backtest num;
  rp_final : num
}.

Section Main.
Context {num : Type} {NUM : Numeric num} {MOM : Moments num}
        {REG : Regression num} {ADF : Stationarity num}.

(** [data[k]] of a dict: KeyError when the key is absent. *)
Fixpoint getitem (data : list (string * DataFrame num)) (k : string)
    : result (DataFrame num) :=
  match data with
  | [] => Raise KeyError
  | (name, df) :: data' => if String.eqb k name then Ok df else getitem data' k
  end.

(** [pd.Series(values, index=dates)]: ValueError when the lengths differ. *)
Definition make_series (vals : list num) (dates : list Timestamp)
    : attempt (Series num) :=
  if List.length vals =? List.length dates then Done (combine dates vals)
  else Failed ValueError.

Definition main_from_data (data : list (string * DataFrame num))
    (cash significance entry_z exit_z : num) : attempt (option (Report num)) :=
  match data with
  | [] => Done None
  | _ =>
    and_then (attempt_of (find_cointegrated_pairs data significance 10)) (fun pairs =>
    match pairs with
    | [] => Done None
    | (a, b, p) :: _ =>
      and_then (attempt_of (getitem data a)) (fun df_a =>
      and_then (attempt_of (safe_price df_a)) (fun s_a =>
      and_then (attempt_of (getitem data b)) (fun df_b =>
      and_then (attempt_of (safe_price df_b)) (fun s_b =>
      let frame := concat_dropna s_a s_b in
      let x := map (fun r => (fst (fst r), snd (fst r))) frame in
      let y := map (fun r => (fst (fst r), snd r)) frame in
      and_then (attempt_of (backtest_pair x y cash entry_z exit_z)) (fun bt =>
      let dates := tl (map (fun r => fst (fst r)) frame) in
      and_then (make_series (tl (bt_pnl bt)) dates) (fun portfolio_series =>
      and_then (make_series (tl (values x)) dates) (fun benchmark_series =>
      Done (Some {| rp_pair := (a, b, p);
                    rp_portfolio := portfolio_series;
                    rp_benchmark := benchmark_series;
                    rp_backtest := bt;
                    rp_final := last (bt_pnl bt) cash |}))))))))
    end)
  end.
End Main.

(** ** Names without leading white space *)

(** A name that does not start with a character [str.strip()] removes. *)
Definition no_leading_space (s : string) : Prop :=
  match s with
  | EmptyString => True
  | String c _ => is_space c = false
  end.

(** ** A second law of the order *)

(** "Not below" passes through a middle element that is itself below
    something: from [b < s], not [b < a] and not [c < b] follows not
    [c < a].  True of any total order, and of binary64 comparison: a number
    that is below another one is no NaN. *)
Class Comparable (num : Type) {NUM : Numeric num} : Prop :=
  lt_through : forall s a b c : num,
    lt b s = true -> lt b a = false -> lt c b = false -> lt c a = false.

Arguments Comparable num {NUM}.

(** The place of a binary64 number that is no NaN in the order of the
    comparison: the sign class first, then exponent and mantissa, both
    negated for a negative number. *)
Definition rank (x : spec_float) : Z * Z * Z :=
  match x with
  | S754_zero _ => (0, 0, 0)%Z
  | S754_infinity s => (if s then (-2)%Z else 2%Z, 0%Z, 0%Z)
  | S754_nan => (0, 0, 0)%Z
  | S754_finite s m e =>
      if s then ((-1)%Z, (- e)%Z, Z.neg m) else (1%Z, e, Z.pos m)
  end.

Definition rank_below (a b : Z * Z * Z) : Prop :=
  (fst (fst a) < fst (fst b))%Z \/
  (fst (fst a) = fst (fst b) /\
   ((snd (fst a) < snd (fst b))%Z \/
    (snd (fst a) = snd (fst b) /\ (snd a < snd b)%Z))).

Module Vectors2.
Import Vectors.

(** The candidate the scan of [long_universe] returns. *)
Definition found : Candidate float := ("A"%string, "B"%string, 0.0078125%float).

(** The candidates the scan of [wide_universe] returns, with the p-values
    of [residual_oracle]. *)
Definition found_ac : Candidate float :=
  ("A"%string, "C"%string, 0x1.56b00ffda400ap-7%float).
Definition found_bc : Candidate float :=
  ("B"%string, "C"%string, 0x1.4db37a050bb21p-6%float).
Definition found_ab : Candidate float :=
  ("A"%string, "B"%string, 0x1.b605d4a108833p-6%float).
End Vectors2.
(** * Properties *)

Unset Implicit Arguments.

(** ** Series facts *)

Section SeriesFacts.
Context {num : Type}.

Lemma index_series_map (f : num -> num) (s : Series num) :
  index (series_map f s) = index s.
Proof.
  unfold index, series_map. rewrite map_map. reflexivity.
Qed.

Lemma length_series_map (f : num -> num) (s : Series num) :
  List.length (series_map f s) = List.length s.
Proof.
  unfold series_map. apply length_map.
Qed.

Lemma loc_defined (s : Series num) (d : Timestamp) :
  In d (index s) -> exists v, loc s d = Ok v.
Proof.
  intros Hin. unfold loc.
  destruct (filter (fun r => Z.eqb (fst r) d) s) as [|r [|r' rs]] eqn:E.
  - exfalso. apply in_map_iff in Hin. destruct Hin as [r [Hr Hin]].
    assert (In r (filter (fun r => Z.eqb (fst r) d) s)) as Hf.
    { apply filter_In. split; [exact Hin|]. apply Z.eqb_eq. exact Hr. }
    rewrite E in Hf. destruct Hf.
  - eexists. reflexivity.
  - eexists. reflexivity.
Qed.
End SeriesFacts.


(** ** The loop never raises and follows the transition rules *)

Section LoopFacts.
Context {num : Type} {NUM : Numeric num} {MOM : Moments num}.
Variables (spread z : Series num).
Variables (cash entry_z exit_z : num).

Lemma initial_well_formed : well_formed z (initial cash).
Proof. left. reflexivity. Qed.

Lemma close_defined (st : state num) label move t s_i z_i :
  position st <> 0%Z -> well_formed z st ->
  exists st', close spread z cash st label move t s_i z_i = Ok st' /\
    well_formed z st' /\ pnl st' = pnl st /\
    closes label st t s_i st'.
Proof.
  intros Hpos [Hflat | (ep & ed & Hep & Hed & Hin)]; [contradiction|].
  unfold close. rewrite Hep, Hed.
  destruct (loc_defined z ed Hin) as [ez Hez]. rewrite Hez. simpl.
  eexists. split; [reflexivity|]. split; [left; reflexivity|].
  split; [reflexivity|].
  unfold closes; simpl. repeat split.
  eexists. repeat split; simpl; auto.
Qed.

Lemma trade_logic_defined (st : state num) t s_i z_i :
  well_formed z st -> In t (index z) ->
  exists st', trade_logic spread z cash entry_z exit_z st t s_i z_i = Ok st' /\
    well_formed z st' /\ pnl st' = pnl st /\
    transition entry_z exit_z st t s_i z_i st'.
Proof.
  intros Hwf Hin. unfold trade_logic.
  destruct (position st =? 0)%Z eqn:E0.
  - apply Z.eqb_eq in E0.
    destruct (gt z_i entry_z) eqn:Eg.
    + eexists. split; [reflexivity|]. split; [|split; [reflexivity|]].
      * right. simpl. eauto.
      * apply flat_to_short; auto. unfold opens; simpl. auto.
    + destruct (lt z_i (neg entry_z)) eqn:El.
      * eexists. split; [reflexivity|]. split; [|split; [reflexivity|]].
        -- right. simpl. eauto.
        -- apply flat_to_long; auto. unfold opens; simpl. auto.
      * eexists. split; [reflexivity|]. split; [exact Hwf|].
        split; [reflexivity|].
        apply no_transition; [|unfold persists; auto].
        unfold rule_applies. rewrite E0, Eg, El. reflexivity.
  - assert (position st <> 0%Z) as Hne by (apply Z.eqb_neq; exact E0).
    destruct (position st =? 1)%Z eqn:E1.
    + apply Z.eqb_eq in E1.
      destruct (gt z_i (neg exit_z)) eqn:Eg; simpl.
      * destruct (close_defined st "LONG"%string (fun a b => sub a b) t s_i z_i Hne Hwf)
          as (st' & Hc & Hwf' & Hpnl & Hcl).
        exists st'. repeat split; auto. apply long_to_flat; auto.
      * rewrite E1. simpl.
        eexists. split; [reflexivity|]. split; [exact Hwf|].
        split; [reflexivity|].
        apply no_transition; [|unfold persists; auto].
        unfold rule_applies. rewrite E1, Eg. reflexivity.
    + simpl. destruct (position st =? -1)%Z eqn:E2.
      * apply Z.eqb_eq in E2.
        destruct (lt z_i exit_z) eqn:El; simpl.
        -- destruct (close_defined st "SHORT"%string (fun a b => sub b a) t s_i z_i Hne Hwf)
             as (st' & Hc & Hwf' & Hpnl & Hcl).
           exists st'. repeat split; auto. apply short_to_flat; auto.
        -- eexists. split; [reflexivity|]. split; [exact Hwf|].
           split; [reflexivity|].
           apply no_transition; [|unfold persists; auto].
           unfold rule_applies. rewrite E2, El. reflexivity.
      * simpl. eexists. split; [reflexivity|]. split; [exact Hwf|].
        split; [reflexivity|].
        apply no_transition; [|unfold persists; auto].
        unfold rule_applies, FLAT, LONG_SPREAD, SHORT_SPREAD.
        rewrite E0, E1, E2. reflexivity.
Qed.

Lemma transition_record_pnl (st : state num) t s_i z_i st' :
  transition entry_z exit_z st t s_i z_i st' ->
  transition entry_z exit_z st t s_i z_i (record_pnl st').
Proof.
  intros [H0 Hg Ho | H0 Hg Ho | H0 Hg Hc | H0 Hg Hc | Hn Hp].
  - apply flat_to_short; auto.
  - apply flat_to_long; auto.
  - apply long_to_flat; auto.
  - apply short_to_flat; auto.
  - apply no_transition; auto.
Qed.

Lemma body_defined (st : state num) row :
  well_formed z st -> row_in z row ->
  exists st', body spread z cash entry_z exit_z st row = Ok st' /\
    well_formed z st' /\
    pnl st' = pnl st ++ [capital st'] /\
    transition entry_z exit_z st (fst (fst row)) (snd (fst row)) (snd row) st'.
Proof.
  destruct row as [[t s_i] z_i]. unfold row_in. simpl. intros Hwf Hin.
  destruct (trade_logic_defined st t s_i z_i Hwf Hin)
    as (st' & Htl & Hwf' & Hpnl & Htr).
  exists (record_pnl st'). rewrite Htl. simpl.
  split; [reflexivity|]. split; [exact Hwf'|]. split.
  - rewrite Hpnl. reflexivity.
  - apply transition_record_pnl. exact Htr.
Qed.

Lemma loop_defined (rs : list (Timestamp * num * num)) :
  forall st, well_formed z st -> Forall (row_in z) rs ->
  exists st', loop spread z cash entry_z exit_z st rs = Ok st' /\
    well_formed z st' /\ follows entry_z exit_z st rs st'.
Proof.
  induction rs as [|row rest IH]; intros st Hwf Hrows.
  - exists st. repeat split; [exact Hwf | constructor].
  - inversion Hrows as [|? ? Hrow Hrest]; subst.
    destruct (body_defined st row Hwf Hrow) as (st1 & Hb & Hwf1 & _ & Htr).
    destruct (IH st1 Hwf1 Hrest) as (st2 & Hl & Hwf2 & Hf).
    exists st2. simpl. rewrite Hb. simpl. repeat split; auto.
    destruct row as [[t s_i] z_i]. econstructor; eauto.
Qed.
End LoopFacts.

(** ** From the loop to backtest_pair *)

Section BacktestFacts.
Context {num : Type} {NUM : Numeric num} {MOM : Moments num} {REG : Regression num}.

Lemma Forall_tl {A : Type} (P : A -> Prop) (l : list A) :
  Forall P l -> Forall P (tl l).
Proof.
  intros Hl. destruct l; simpl; [constructor|]. inversion Hl; assumption.
Qed.

Lemma rows_row_in (spread z : Series num) :
  index z = index spread -> Forall (row_in z) (rows spread z).
Proof.
  intros Hidx. apply Forall_forall. intros row Hrow.
  unfold rows in Hrow. apply in_map_iff in Hrow.
  destruct Hrow as [[[t s] zi] [Hr Hin]]. subst row.
  unfold row_in. simpl. rewrite Hidx.
  apply in_combine_l in Hin. unfold index.
  apply in_map_iff. exists (t, s). split; [reflexivity | exact Hin].
Qed.

Lemma index_zscore (spread : Series num) : index (zscore spread) = index spread.
Proof. unfold zscore. apply index_series_map. Qed.

Lemma backtest_pair_simulate (x y : Series num) (cash entry_z exit_z : num) :
  backtest_pair x y cash entry_z exit_z =
  (st <- simulate (fst (compute_spread x y)) (zscore (fst (compute_spread x y)))
                  cash entry_z exit_z ;;
   Ok {| bt_pnl := pnl st; bt_spread := fst (compute_spread x y);
         bt_z := zscore (fst (compute_spread x y));
         bt_beta := snd (compute_spread x y); bt_trades := trades st |}).
Proof. reflexivity. Qed.

(** backtest_pair returns, and its result is the projection of the final
    state of the loop run from [initial] over the rows after the first. *)
Lemma backtest_pair_defined (x y : Series num) (cash entry_z exit_z : num) :
  exists (st : state num) (r : Backtest num),
    backtest_pair x y cash entry_z exit_z = Ok r /\
    bt_spread r = fst (compute_spread x y) /\
    bt_z r = zscore (bt_spread r) /\
    bt_beta r = snd (compute_spread x y) /\
    bt_trades r = trades st /\ bt_pnl r = pnl st /\
    loop (bt_spread r) (bt_z r) cash entry_z exit_z (initial cash)
         (tl (rows (bt_spread r) (bt_z r))) = Ok st /\
    well_formed (bt_z r) st.
Proof.
  rewrite backtest_pair_simulate.
  set (spread := fst (compute_spread x y)).
  destruct (loop_defined spread (zscore spread) cash entry_z exit_z
              (tl (rows spread (zscore spread))) (initial cash))
    as (st & Hl & Hwf & _).
  - apply initial_well_formed.
  - apply Forall_tl. apply rows_row_in. apply index_zscore.
  - exists st. eexists. unfold simulate. rewrite Hl. simpl.
    split; [reflexivity|]. simpl. repeat split; auto.
Qed.

Lemma rows_series_map (f : num -> num) (spread : Series num) :
  rows spread (series_map f spread) =
  map (fun r => (fst r, snd r, f (snd r))) spread.
Proof.
  unfold rows, values, series_map.
  induction spread as [|[t s] spread IH]; simpl; [reflexivity|].
  f_equal. exact IH.
Qed.

(** The rows the loop reads are the rows of the spread and of the z-score
    series, label by label. *)
Lemma rows_zscore (spread : Series num) :
  map (fun row => (fst (fst row), snd (fst row))) (rows spread (zscore spread)) = spread /\
  map (fun row => (fst (fst row), snd row)) (rows spread (zscore spread)) = zscore spread.
Proof.
  unfold zscore. rewrite rows_series_map, !map_map. simpl. split.
  - induction spread as [|[t s] spread IH]; simpl; [reflexivity|].
    f_equal. exact IH.
  - unfold series_map. reflexivity.
Qed.

(** C1.  Every run of backtest_pair returns.  Its loop reads the spread of
    the pair and the z-scores of that spread row by row, from the second
    observation onward, and each step is one of the transitions of the
    specification: FLAT to SHORT_SPREAD when z > entry threshold and
    FLAT to LONG_SPREAD when z < -entry threshold (recording entry spread
    and timestamp), LONG_SPREAD to FLAT when z > -exit threshold and
    SHORT_SPREAD to FLAT when z < exit threshold (realizing the profit and
    appending a Trade); when no rule applies the state persists.  The ledger
    and the trajectory returned are those of the state the last step of the
    loop leaves. *)
Theorem backtest_pair_follows_transition_rules
    (x y : Series num) (cash entry_z exit_z : num) :
  exists (st : state num) (r : Backtest num),
    backtest_pair x y cash entry_z exit_z = Ok r /\
    bt_spread r = fst (compute_spread x y) /\
    bt_beta r = snd (compute_spread x y) /\
    bt_z r = zscore (bt_spread r) /\
    map (fun row => (fst (fst row), snd (fst row))) (rows (bt_spread r) (bt_z r))
      = bt_spread r /\
    map (fun row => (fst (fst row), snd row)) (rows (bt_spread r) (bt_z r))
      = bt_z r /\
    loop (bt_spread r) (bt_z r) cash entry_z exit_z (initial cash)
         (tl (rows (bt_spread r) (bt_z r))) = Ok st /\
    follows entry_z exit_z (initial cash)
            (tl (rows (bt_spread r) (bt_z r))) st /\
    bt_trades r = trades st /\ bt_pnl r = pnl st.
Proof.
  rewrite backtest_pair_simulate.
  set (spread := fst (compute_spread x y)).
  destruct (loop_defined spread (zscore spread) cash entry_z exit_z
              (tl (rows spread (zscore spread))) (initial cash))
    as (st & Hl & _ & Hf).
  - apply initial_well_formed.
  - apply Forall_tl. apply rows_row_in. apply index_zscore.
  - exists st. eexists. unfold simulate. rewrite Hl. cbn [bind].
    split; [reflexivity|]. cbn [bt_spread bt_beta bt_z bt_trades bt_pnl].
    destruct (rows_zscore spread) as [Hs Hz].
    split; [reflexivity|]. split; [reflexivity|]. split; [reflexivity|].
    split; [exact Hs|]. split; [exact Hz|]. split; [exact Hl|].
    split; [exact Hf|]. split; reflexivity.
Qed.
End BacktestFacts.

(** ** Case analysis of one iteration *)

Section BodyCases.
Context {num : Type} {NUM : Numeric num} {MOM : Moments num}.
Variables (spread z : Series num).
Variables (cash entry_z exit_z : num).

Lemma close_settles (st : state num) label move t s_i z_i st' :
  close spread z cash st label move t s_i z_i = Ok st' ->
  exists ep ed ez,
    entry_price st = Some ep /\ entry_date st = Some ed /\
    loc z ed = Ok ez /\
    st' = settle st
            {| tr_entry_date := ed; tr_exit_date := t; tr_position := label;
               tr_entry_spread := ep; tr_exit_spread := s_i;
               tr_profit := mul (move s_i ep) (quantity spread cash);
               tr_entry_z := ez; tr_exit_z := z_i |}.
Proof.
  unfold close. intros Hc.
  destruct (entry_price st) as [ep|]; [|discriminate].
  destruct (entry_date st) as [ed|]; [|discriminate].
  destruct (loc z ed) as [ez|e] eqn:Hloc; simpl in Hc; [|discriminate].
  inversion Hc; subst. exists ep, ed, ez. repeat split; auto.
Qed.

Lemma trade_logic_cases (st : state num) t s_i z_i st' :
  trade_logic spread z cash entry_z exit_z st t s_i z_i = Ok st' ->
  body_case spread z cash entry_z exit_z st t s_i z_i (record_pnl st').
Proof.
  unfold trade_logic. intros Htl.
  destruct (position st =? 0)%Z eqn:E0.
  - apply Z.eqb_eq in E0.
    destruct (gt z_i entry_z) eqn:Eg.
    + inversion Htl; subst. apply case_short; auto.
    + destruct (lt z_i (neg entry_z)) eqn:El; inversion Htl; subst.
      * apply case_long; auto.
      * apply case_stay.
  - destruct (position st =? 1)%Z eqn:E1; simpl in Htl.
    + apply Z.eqb_eq in E1.
      destruct (gt z_i (neg exit_z)) eqn:Eg.
      * apply close_settles in Htl.
        destruct Htl as (ep & ed & ez & Hep & Hed & Hloc & ->).
        apply case_close. unfold closing; simpl.
        repeat split; auto; left; repeat split; auto.
      * rewrite E1 in Htl. simpl in Htl. inversion Htl; subst. apply case_stay.
    + destruct (position st =? -1)%Z eqn:E2; simpl in Htl.
      * apply Z.eqb_eq in E2.
        destruct (lt z_i exit_z) eqn:El.
        -- apply close_settles in Htl.
           destruct Htl as (ep & ed & ez & Hep & Hed & Hloc & ->).
           apply case_close. unfold closing; simpl.
           repeat split; auto; right; repeat split; auto.
        -- inversion Htl; subst. apply case_stay.
      * inversion Htl; subst. apply case_stay.
Qed.

Lemma body_cases (st : state num) t s_i z_i st' :
  body spread z cash entry_z exit_z st (t, s_i, z_i) = Ok st' ->
  body_case spread z cash entry_z exit_z st t s_i z_i st'.
Proof.
  unfold body. intros Hb.
  destruct (trade_logic spread z cash entry_z exit_z st t s_i z_i) as [st1|e] eqn:Htl;
    simpl in Hb; [|discriminate].
  inversion Hb; subst. apply trade_logic_cases. exact Htl.
Qed.
End BodyCases.

(** ** What a run of the loop adds to the trajectory and to the ledger *)

Section RunFacts.
Context {num : Type} {NUM : Numeric num} {MOM : Moments num}.
Variables (spread z : Series num).
Variables (cash entry_z exit_z : num).

Lemma last_cons_default {A : Type} (l : list A) :
  forall a d, last (a :: l) d = last l a.
Proof.
  induction l as [|b l IH]; intros a d; [reflexivity|].
  change (last (a :: b :: l) d) with (last (b :: l) d).
  rewrite (IH b d), (IH b a). reflexivity.
Qed.

Lemma realized_only_incl (l l' : list (Trade num)) :
  incl l l' ->
  forall ts c caps, realized_only l ts c caps -> realized_only l' ts c caps.
Proof.
  intros Hincl. induction ts as [|t ts IH]; intros c [|c' caps]; simpl; auto.
  intros [Hstep Hrest]. split; [|apply IH; exact Hrest].
  destruct Hstep as [Heq | (tr & Hin & Ht & Hc)]; [left; exact Heq|].
  right. exists tr. auto.
Qed.

Lemma body_case_effect (st : state num) t s_i z_i st1 :
  body_case spread z cash entry_z exit_z st t s_i z_i st1 ->
  pnl st1 = pnl st ++ [capital st1] /\
  ((trades st1 = trades st /\ capital st1 = capital st) \/
   (exists tr, closing spread z cash exit_z st t s_i z_i tr /\
               trades st1 = trades st ++ [tr] /\
               capital st1 = add (capital st) (tr_profit tr))).
Proof.
  intros [H0 Hg | H0 Hg Hl | tr Hc | ]; simpl; split; auto.
  right. exists tr. auto.
Qed.

Lemma closing_priced (st : state num) t s_i z_i tr :
  closing spread z cash exit_z st t s_i z_i tr -> priced spread cash tr.
Proof.
  intros (_ & _ & _ & Hx & _ & _ & Hdir). unfold priced. rewrite Hx.
  destruct Hdir as [(_ & _ & Hl & Hp) | (_ & _ & Hl & Hp)]; [left | right];
    split; assumption.
Qed.

Lemma loop_adds (rs : list (Timestamp * num * num)) :
  forall st st',
    loop spread z cash entry_z exit_z st rs = Ok st' ->
    exists caps news,
      pnl st' = pnl st ++ caps /\
      trades st' = trades st ++ news /\
      List.length caps = List.length rs /\
      realized_only news (map (fun r => fst (fst r)) rs) (capital st) caps /\
      capital st' = last caps (capital st) /\
      capital st' = fold_left add (map (@tr_profit num) news) (capital st) /\
      Forall (priced spread cash) news.
Proof.
  induction rs as [|[[t s_i] z_i] rest IH]; intros st st' Hl; cbn [loop] in Hl.
  - inversion Hl; subst. exists [], []. simpl.
    rewrite !app_nil_r. repeat split; auto.
  - destruct (body spread z cash entry_z exit_z st (t, s_i, z_i)) as [st1|e] eqn:Hb;
      cbn [bind] in Hl; [|discriminate].
    apply body_cases in Hb. apply body_case_effect in Hb.
    destruct Hb as [Hpnl Heff].
    destruct (IH st1 st' Hl) as (caps & news & Hp & Ht & Hlen & Hro & Hlast & Hsum & Hpr).
    destruct Heff as [[Htr Hcap] | (tr & Hcl & Htr & Hcap)].
    + exists (capital st1 :: caps), news.
      split; [|split; [|split; [|split; [|split; [|split]]]]].
      * rewrite Hp, Hpnl, <- app_assoc. reflexivity.
      * rewrite Ht, Htr. reflexivity.
      * simpl. rewrite Hlen. reflexivity.
      * simpl. split; [left; exact Hcap | exact Hro].
      * rewrite last_cons_default. exact Hlast.
      * rewrite Hsum, Hcap. reflexivity.
      * exact Hpr.
    + exists (capital st1 :: caps), (tr :: news).
      split; [|split; [|split; [|split; [|split; [|split]]]]].
      * rewrite Hp, Hpnl, <- app_assoc. reflexivity.
      * rewrite Ht, Htr, <- app_assoc. reflexivity.
      * simpl. rewrite Hlen. reflexivity.
      * simpl. split.
        -- right. exists tr. split; [left; reflexivity|]. split; [|exact Hcap].
           destruct Hcl as (_ & _ & Hx & _). exact Hx.
        -- apply realized_only_incl with (l := news); [|exact Hro].
           intros a Ha. right. exact Ha.
      * rewrite last_cons_default. exact Hlast.
      * rewrite Hsum, Hcap. reflexivity.
      * constructor; [|exact Hpr]. eapply closing_priced. exact Hcl.
Qed.
End RunFacts.

(** ** Prefixes of a run: the state at every step *)

Section Prefixes.
Context {num : Type} {NUM : Numeric num} {MOM : Moments num}.
Variables (spread z : Series num).
Variables (cash entry_z exit_z : num).

Local Abbreviation run := (loop spread z cash entry_z exit_z).
Local Abbreviation step := (body spread z cash entry_z exit_z).

Lemma loop_app (rs1 rs2 : list (Timestamp * num * num)) :
  forall st, run st (rs1 ++ rs2) = (st1 <- run st rs1 ;; run st1 rs2).
Proof.
  induction rs1 as [|r rs1 IH]; intros st; [reflexivity|].
  cbn [loop app]. destruct (step st r) as [st1|e]; cbn [bind]; [apply IH | reflexivity].
Qed.

Lemma loop_prefix (rs : list (Timestamp * num * num)) (k : nat) :
  forall st st', run st rs = Ok st' ->
  exists st_k, run st (firstn k rs) = Ok st_k /\ run st_k (skipn k rs) = Ok st'.
Proof.
  intros st st' Hrun. rewrite <- (firstn_skipn k rs) in Hrun.
  rewrite loop_app in Hrun.
  destruct (run st (firstn k rs)) as [st_k|e]; cbn [bind] in Hrun; [|discriminate].
  exists st_k. split; [reflexivity | exact Hrun].
Qed.

Lemma body_valid_position (st : state num) row st' :
  step st row = Ok st' ->
  valid_position (position st) -> valid_position (position st').
Proof.
  destruct row as [[t s_i] z_i]. intros Hb Hv. apply body_cases in Hb.
  destruct Hb as [H0 Hg | H0 Hg Hl | tr Hc | ]; simpl.
  - right. right. reflexivity.
  - right. left. reflexivity.
  - left. reflexivity.
  - exact Hv.
Qed.

Lemma loop_valid_position (rs : list (Timestamp * num * num)) :
  forall st st', run st rs = Ok st' ->
  valid_position (position st) -> valid_position (position st').
Proof.
  induction rs as [|r rs IH]; intros st st' Hrun Hv; cbn [loop] in Hrun.
  - inversion Hrun; subst. exact Hv.
  - destruct (step st r) as [st1|e] eqn:Hb; cbn [bind] in Hrun; [|discriminate].
    apply (IH st1 st' Hrun). eapply body_valid_position; eauto.
Qed.

End Prefixes.

(** ** The dates of the ledger are strictly increasing *)

Section Timeline.
Context {num : Type} {NUM : Numeric num} {MOM : Moments num}.
Variables (spread z : Series num).
Variables (cash entry_z exit_z : num).

Local Abbreviation run := (loop spread z cash entry_z exit_z).
Local Abbreviation step := (body spread z cash entry_z exit_z).

Lemma sorted_snoc (l : list Z) (t : Z) :
  StronglySorted Z.lt l -> Forall (fun d => (d < t)%Z) l ->
  StronglySorted Z.lt (l ++ [t]).
Proof.
  induction l as [|a l IH]; intros Hs Hb; simpl.
  - constructor; constructor.
  - inversion Hs as [|? ? Hs' Ha]; subst. inversion Hb as [|? ? Hat Hb']; subst.
    constructor; [apply IH; assumption|].
    apply Forall_app. split; [exact Ha|]. constructor; [exact Hat | constructor].
Qed.

Lemma ledger_dates_app (l l' : list (Trade num)) :
  ledger_dates (l ++ l') = ledger_dates l ++ ledger_dates l'.
Proof. unfold ledger_dates. apply flat_map_app. Qed.

Lemma body_case_timeline (st : state num) t s_i z_i st1 :
  body_case spread z cash entry_z exit_z st t s_i z_i st1 ->
  (position st = 0%Z -> entry_date st = None) ->
  (timeline st1 = timeline st ++ [t] \/ timeline st1 = timeline st) /\
  (position st1 = 0%Z -> entry_date st1 = None).
Proof.
  intros Hcase Hflat.
  destruct Hcase as [H0 Hg | H0 Hg Hl | tr Hc | ]; unfold timeline, open_date; simpl.
  - rewrite (Hflat H0), app_nil_r. split; [left; reflexivity | discriminate].
  - rewrite (Hflat H0), app_nil_r. split; [left; reflexivity | discriminate].
  - destruct Hc as (Hed & _ & Hx & _). rewrite Hed, ledger_dates_app. simpl.
    rewrite Hx, app_nil_r, <- app_assoc. simpl.
    split; [left; reflexivity | reflexivity].
  - split; [right; reflexivity | exact Hflat].
Qed.

Lemma loop_timeline (rs : list (Timestamp * num * num)) :
  forall st st' (b : Z),
    run st rs = Ok st' ->
    (position st = 0%Z -> entry_date st = None) ->
    StronglySorted Z.lt (timeline st) ->
    Forall (fun d => (d <= b)%Z) (timeline st) ->
    StronglySorted Z.lt (b :: map (fun r => fst (fst r)) rs) ->
    StronglySorted Z.lt (timeline st') /\
    (position st' = 0%Z -> entry_date st' = None).
Proof.
  induction rs as [|[[t s_i] z_i] rs IH]; intros st st' b Hrun Hflat Hs Hb Hts;
    cbn [loop] in Hrun.
  - inversion Hrun; subst. split; assumption.
  - destruct (step st (t, s_i, z_i)) as [st1|e] eqn:Hbody; cbn [bind] in Hrun;
      [|discriminate].
    apply body_cases in Hbody.
    destruct (body_case_timeline st t s_i z_i st1 Hbody Hflat) as [Htl Hflat1].
    simpl in Hts. inversion Hts as [|? ? Hts' Hbt]; subst.
    inversion Hbt as [|? ? Hlt _]; subst.
    assert (Forall (fun d => (d < t)%Z) (timeline st)) as Hlt_t.
    { eapply Forall_impl; [|exact Hb]. simpl. intros d Hd. lia. }
    apply (IH st1 st' t Hrun Hflat1).
    + destruct Htl as [-> | ->]; [apply sorted_snoc; assumption | exact Hs].
    + destruct Htl as [-> | ->].
      * apply Forall_app. split.
        -- eapply Forall_impl; [|exact Hlt_t]. simpl. intros d Hd. lia.
        -- constructor; [lia | constructor].
      * eapply Forall_impl; [|exact Hlt_t]. simpl. intros d Hd. lia.
    + exact Hts'.
Qed.

(** What strictly increasing ledger dates say about the trades. *)

Lemma ledger_entry_before_exit (l : list (Trade num)) :
  StronglySorted Z.lt (ledger_dates l) ->
  forall tr, In tr l -> (tr_entry_date tr < tr_exit_date tr)%Z.
Proof.
  induction l as [|a l IH]; intros Hs tr Hin; [destruct Hin|].
  simpl in Hs. inversion Hs as [|? ? Hs1 Ha]; subst.
  inversion Hs1 as [|? ? Hs2 _]; subst.
  destruct Hin as [<- | Hin].
  - inversion Ha; assumption.
  - apply IH; assumption.
Qed.

Lemma ledger_consecutive (l : list (Trade num)) :
  StronglySorted Z.lt (ledger_dates l) ->
  forall i a b, nth_error l i = Some a -> nth_error l (S i) = Some b ->
                (tr_exit_date a < tr_entry_date b)%Z.
Proof.
  induction l as [|c l IH]; intros Hs i a b Ha Hb; [destruct i; discriminate|].
  simpl in Hs. inversion Hs as [|? ? Hs1 _]; subst.
  inversion Hs1 as [|? ? Hs2 Hx]; subst.
  destruct i as [|i]; simpl in Ha, Hb.
  - inversion Ha; subst. destruct l as [|d l]; [discriminate|].
    simpl in Hb. inversion Hb; subst. simpl in Hx. inversion Hx; assumption.
  - apply (IH Hs2 i a b Ha Hb).
Qed.

Lemma ledger_disjoint (l : list (Trade num)) :
  StronglySorted Z.lt (ledger_dates l) ->
  forall a b, In a l -> In b l ->
    a = b \/ (tr_exit_date a < tr_entry_date b)%Z
          \/ (tr_exit_date b < tr_entry_date a)%Z.
Proof.
  induction l as [|c l IH]; intros Hs a b Ha Hb; [destruct Ha|].
  simpl in Hs. inversion Hs as [|? ? Hs1 _]; subst.
  inversion Hs1 as [|? ? Hs2 Hx]; subst.
  assert (forall d, In d l -> (tr_exit_date c < tr_entry_date d)%Z) as Hafter.
  { intros d Hd. rewrite Forall_forall in Hx. apply Hx.
    unfold ledger_dates. apply in_flat_map. exists d. split; [exact Hd|].
    left. reflexivity. }
  destruct Ha as [<- | Ha]; destruct Hb as [<- | Hb].
  - left. reflexivity.
  - right. left. apply Hafter. exact Hb.
  - right. right. apply Hafter. exact Ha.
  - apply IH; assumption.
Qed.
End Timeline.

(** ** Index and rows of the spread *)

Section SpreadFacts.
Context {num : Type} {NUM : Numeric num} {MOM : Moments num} {REG : Regression num}.

Lemma index_series_zip (f : num -> num -> num) (a : Series num) :
  forall b, List.length a = List.length b -> index (series_zip f a b) = index a.
Proof.
  induction a as [|[t u] a IH]; intros [|[t' v] b] Hlen; simpl in *;
    try reflexivity; try discriminate.
  f_equal. apply IH. lia.
Qed.

Lemma aligned_length (x y : Series num) :
  aligned x y -> List.length x = List.length y.
Proof.
  unfold aligned, index. intros Hidx.
  rewrite <- (length_map fst x), <- (length_map fst y), Hidx. reflexivity.
Qed.

Lemma index_compute_spread (x y : Series num) :
  aligned x y -> index (fst (compute_spread x y)) = index x.
Proof.
  intros Hal. unfold compute_spread. simpl.
  rewrite index_series_zip.
  - symmetry. exact Hal.
  - rewrite length_series_map. symmetry. apply aligned_length. exact Hal.
Qed.

Lemma rows_series_map_timestamps (f : num -> num) (spread : Series num) :
  map (fun r => fst (fst r)) (rows spread (series_map f spread)) = index spread.
Proof.
  unfold rows, values, series_map, index.
  induction spread as [|[t s] spread IH]; simpl; [reflexivity|].
  f_equal. exact IH.
Qed.

Lemma rows_timestamps (spread : Series num) :
  map (fun r => fst (fst r)) (rows spread (zscore spread)) = index spread.
Proof. unfold zscore. apply rows_series_map_timestamps. Qed.

Lemma map_tl {A B : Type} (f : A -> B) (l : list A) : map f (tl l) = tl (map f l).
Proof. destruct l; reflexivity. Qed.

Lemma length_tl_cons {A : Type} (l : list A) :
  l <> [] -> S (List.length (tl l)) = List.length l.
Proof. destruct l; [contradiction | reflexivity]. Qed.

(** C2.  Every trade in the ledger of a backtest is labelled LONG or
    SHORT and its profit is (exit spread - entry spread) * (size / std)
    for LONG and (entry spread - exit spread) * (size / std) for SHORT,
    with size = cash * 0.1 and std the standard deviation of the whole
    spread series; no z-score enters the formula. *)
Theorem backtest_pair_profit_formula
    (x y : Series num) (cash entry_z exit_z : num) :
  exists r : Backtest num,
    backtest_pair x y cash entry_z exit_z = Ok r /\
    forall tr, In tr (bt_trades r) ->
      (tr_position tr = "LONG"%string /\
       tr_profit tr =
         mul (sub (tr_exit_spread tr) (tr_entry_spread tr))
             (div (mul cash point_one) (series_std (values (bt_spread r)))))
      \/
      (tr_position tr = "SHORT"%string /\
       tr_profit tr =
         mul (sub (tr_entry_spread tr) (tr_exit_spread tr))
             (div (mul cash point_one) (series_std (values (bt_spread r))))).
Proof.
  destruct (backtest_pair_defined x y cash entry_z exit_z)
    as (st & r & Hr & _ & _ & _ & Htr & _ & Hloop & _).
  exists r. split; [exact Hr|].
  destruct (loop_adds _ _ _ _ _ _ _ _ Hloop)
    as (caps & news & _ & Hnews & _ & _ & _ & _ & Hpriced).
  simpl in Hnews. rewrite Htr, Hnews.
  intros tr Hin. rewrite Forall_forall in Hpriced. apply (Hpriced tr Hin).
Qed.

End SpreadFacts.

(** ** Runs on well-formed inputs *)

Section WellFormedRuns.
Context {num : Type} {NUM : Numeric num} {MOM : Moments num} {REG : Regression num}.

Lemma sorted_app_l (l l' : list Z) :
  StronglySorted Z.lt (l ++ l') -> StronglySorted Z.lt l.
Proof.
  induction l as [|a l IH]; intros Hs; [constructor|].
  simpl in Hs. inversion Hs as [|? ? Hs' Ha]; subst.
  constructor; [apply IH; exact Hs'|].
  apply Forall_app in Ha. destruct Ha as [Ha _]. exact Ha.
Qed.

Lemma sorted_nth_error (l : list Z) :
  StronglySorted Z.lt l ->
  forall i j a b, i < j -> nth_error l i = Some a -> nth_error l j = Some b ->
                  (a < b)%Z.
Proof.
  induction l as [|c l IH]; intros Hs i j a b Hij Ha Hb; [destruct i; discriminate|].
  inversion Hs as [|? ? Hs' Hc]; subst.
  destruct j as [|j]; [lia|]. simpl in Hb.
  destruct i as [|i]; simpl in Ha.
  - inversion Ha; subst. rewrite Forall_forall in Hc. apply Hc.
    eapply nth_error_In. exact Hb.
  - apply (IH Hs' i j a b); [lia | exact Ha | exact Hb].
Qed.

Lemma realized_only_nth (L : list (Trade num)) (ts : list Timestamp) :
  forall c caps, realized_only L ts c caps ->
  forall k t, nth_error ts k = Some t ->
  exists ck ck1,
    nth_error (c :: caps) k = Some ck /\ nth_error caps k = Some ck1 /\
    (ck1 = ck \/
     exists tr, In tr L /\ tr_exit_date tr = t /\ ck1 = add ck (tr_profit tr)).
Proof.
  induction ts as [|t0 ts IH]; intros c caps Hro k t Hk; [destruct k; discriminate|].
  destruct caps as [|c1 caps]; simpl in Hro; [contradiction|].
  destruct Hro as [Hstep Hrest].
  destruct k as [|k]; simpl in Hk.
  - inversion Hk; subst. exists c, c1. simpl. auto.
  - destruct (IH c1 caps Hrest k t Hk) as (ck & ck1 & H1 & H2 & H3).
    exists ck, ck1. simpl. auto.
Qed.

(** On aligned series with increasing timestamps the dates of the ledger
    are strictly increasing, entry then exit, trade after trade. *)
Lemma backtest_pair_ledger_sorted (x y : Series num) (cash entry_z exit_z : num) :
  aligned x y -> increasing x ->
  exists r : Backtest num,
    backtest_pair x y cash entry_z exit_z = Ok r /\
    StronglySorted Z.lt (ledger_dates (bt_trades r)).
Proof.
  intros Hal Hinc.
  destruct (backtest_pair_defined x y cash entry_z exit_z)
    as (st & r & Hr & Hsp & Hz & _ & Htr & _ & Hloop & _).
  exists r. split; [exact Hr|]. rewrite Htr.
  assert (StronglySorted Z.lt (index (bt_spread r))) as Hsorted.
  { rewrite Hsp, index_compute_spread by exact Hal. exact Hinc. }
  assert (map (fun r0 : Timestamp * num * num => fst (fst r0))
              (tl (rows (bt_spread r) (bt_z r))) = tl (index (bt_spread r))) as Hts.
  { rewrite map_tl, Hz, rows_timestamps. reflexivity. }
  assert (exists b, StronglySorted Z.lt (b :: tl (index (bt_spread r)))) as [b Hb].
  { destruct (index (bt_spread r)) as [|t0 ts]; simpl.
    - exists 0%Z. constructor; constructor.
    - exists t0. exact Hsorted. }
  rewrite <- Hts in Hb.
  destruct (loop_timeline _ _ _ _ _ _ _ _ b Hloop) as [Hs _].
  - reflexivity.
  - constructor.
  - constructor.
  - exact Hb.
  - unfold timeline in Hs. apply sorted_app_l in Hs. exact Hs.
Qed.

(** C8.  At every step of a backtest (after every prefix of the rows the
    loop reads) the position is one of FLAT, LONG_SPREAD, SHORT_SPREAD, one
    value at a time; and on aligned series with increasing timestamps the
    trades of the ledger do not overlap: each trade exits strictly before
    the next one is entered. *)
Theorem backtest_pair_positions_and_order
    (x y : Series num) (cash entry_z exit_z : num) :
  aligned x y -> increasing x ->
  exists r : Backtest num,
    backtest_pair x y cash entry_z exit_z = Ok r /\
    (forall k, exists st_k,
       loop (bt_spread r) (bt_z r) cash entry_z exit_z (initial cash)
            (firstn k (tl (rows (bt_spread r) (bt_z r)))) = Ok st_k /\
       valid_position (position st_k)) /\
    (forall i a b,
       nth_error (bt_trades r) i = Some a ->
       nth_error (bt_trades r) (S i) = Some b ->
       (tr_exit_date a < tr_entry_date b)%Z).
Proof.
  intros Hal Hinc.
  destruct (backtest_pair_ledger_sorted x y cash entry_z exit_z Hal Hinc)
    as (r & Hr & Hsorted).
  destruct (backtest_pair_defined x y cash entry_z exit_z)
    as (st & r' & Hr' & _ & _ & _ & _ & _ & Hloop & _).
  rewrite Hr in Hr'. inversion Hr'; subst r'. clear Hr'.
  exists r. split; [exact Hr|]. split.
  - intros k.
    destruct (loop_prefix _ _ _ _ _ _ k _ _ Hloop) as (st_k & Hk & _).
    exists st_k. split; [exact Hk|].
    apply (loop_valid_position _ _ _ _ _ _ _ _ Hk). left. reflexivity.
  - apply ledger_consecutive. exact Hsorted.
Qed.

(** C10.  On aligned series with increasing timestamps every trade of the
    ledger is entered strictly before it is exited: the step that opens a
    position cannot also close it. *)
Theorem backtest_pair_entry_before_exit
    (x y : Series num) (cash entry_z exit_z : num) :
  aligned x y -> increasing x ->
  exists r : Backtest num,
    backtest_pair x y cash entry_z exit_z = Ok r /\
    forall tr, In tr (bt_trades r) ->
               (tr_entry_date tr < tr_exit_date tr)%Z.
Proof.
  intros Hal Hinc.
  destruct (backtest_pair_ledger_sorted x y cash entry_z exit_z Hal Hinc)
    as (r & Hr & Hsorted).
  exists r. split; [exact Hr|].
  apply ledger_entry_before_exit. exact Hsorted.
Qed.
End WellFormedRuns.

(** ** The capital trajectory *)

Section Trajectory.
Context {num : Type} {NUM : Numeric num} {MOM : Moments num} {REG : Regression num}.

Lemma nth_error_last {A : Type} (l : list A) :
  forall a, nth_error (a :: l) (List.length l) = Some (last l a).
Proof.
  induction l as [|b l IH]; intros a; [reflexivity|].
  change (nth_error (a :: b :: l) (List.length (b :: l)))
    with (nth_error (b :: l) (List.length l)).
  rewrite IH, last_cons_default. reflexivity.
Qed.

Lemma constant_run (P : list num) (i : nat) :
  forall j,
    (forall m, i <= m -> S m < j -> nth_error P (S m) = nth_error P m) ->
    forall k, i <= k < j -> nth_error P k = nth_error P i.
Proof.
  intros j Hstep k. induction k as [|k IH]; intros [Hik Hkj].
  - replace i with 0 by lia. reflexivity.
  - destruct (Nat.eq_dec i (S k)) as [-> | Hne]; [reflexivity|].
    rewrite Hstep by lia. apply IH. lia.
Qed.

(** C6.  On aligned, non-empty series with increasing timestamps the
    capital trajectory has one value per observation of the input, which is
    one per row of the z-score series of the pair's spread, and starts with
    the initial capital; each later value is the previous one unless a trade
    of the ledger exits at that row's timestamp, in which case that trade's
    profit is added; from the row a trade is entered to the row before it
    exits the value does not change; and the value recorded at a row is the
    running capital of the loop after that row. *)
Theorem backtest_pair_trajectory
    (x y : Series num) (cash entry_z exit_z : num) :
  aligned x y -> x <> [] -> increasing x ->
  exists r : Backtest num,
    backtest_pair x y cash entry_z exit_z = Ok r /\
    bt_z r = zscore (fst (compute_spread x y)) /\
    index (bt_z r) = index x /\
    List.length (bt_pnl r) = List.length x /\
    List.length (bt_pnl r) = List.length (bt_z r) /\
    hd_error (bt_pnl r) = Some cash /\
    realized_only (bt_trades r) (tl (index (bt_z r))) cash (tl (bt_pnl r)) /\
    (forall tr i j k,
       In tr (bt_trades r) ->
       nth_error (index (bt_z r)) i = Some (tr_entry_date tr) ->
       nth_error (index (bt_z r)) j = Some (tr_exit_date tr) ->
       i <= k < j ->
       nth_error (bt_pnl r) k = nth_error (bt_pnl r) i) /\
    (forall k, k < List.length (bt_pnl r) ->
       exists st_k,
         loop (bt_spread r) (bt_z r) cash entry_z exit_z (initial cash)
              (firstn k (tl (rows (bt_spread r) (bt_z r)))) = Ok st_k /\
         nth_error (bt_pnl r) k = Some (capital st_k)).
Proof.
  intros Hal Hne Hinc.
  destruct (backtest_pair_ledger_sorted x y cash entry_z exit_z Hal Hinc)
    as (r & Hr & Hsorted).
  destruct (backtest_pair_defined x y cash entry_z exit_z)
    as (st & r' & Hr' & Hsp & Hz & _ & Htr & Hpnl & Hloop & _).
  rewrite Hr in Hr'. inversion Hr'; subst r'. clear Hr'.
  exists r. split; [exact Hr|].
  destruct (loop_adds _ _ _ _ _ _ _ _ Hloop)
    as (caps & news & Hcaps & Hnews & Hlen & Hro & _ & _ & _).
  simpl in Hcaps, Hnews, Hro.
  assert (index (bt_z r) = index x) as Hidx.
  { rewrite Hz, index_zscore, Hsp. apply index_compute_spread. exact Hal. }
  assert (map (fun r0 : Timestamp * num * num => fst (fst r0))
              (tl (rows (bt_spread r) (bt_z r))) = tl (index (bt_z r))) as Hts.
  { rewrite map_tl, Hz, rows_timestamps, index_zscore. reflexivity. }
  rewrite Hts in Hro. rewrite <- Hnews, <- Htr in Hro.
  assert (bt_pnl r = cash :: caps) as HP by (rewrite Hpnl; exact Hcaps).
  assert (List.length (bt_pnl r) = List.length (bt_z r)) as Hsame.
  { rewrite HP. simpl. rewrite Hlen, <- (length_map (fun r0 => fst (fst r0))), Hts.
    rewrite length_tl_cons.
    + unfold index. apply length_map.
    + rewrite Hidx. unfold index. destruct x; [contradiction | discriminate]. }
  split; [rewrite Hz, Hsp; reflexivity|].
  split; [exact Hidx|].
  split.
  { rewrite Hsame. rewrite <- (length_map fst (bt_z r)), <- (length_map fst x).
    exact (f_equal (@List.length Timestamp) Hidx). }
  split; [exact Hsame|].
  split; [|split; [|split]].
  - rewrite HP. reflexivity.
  - rewrite HP. exact Hro.
  - intros tr i j k Hin Hi Hj Hk.
    assert (StronglySorted Z.lt (index (bt_z r))) as Hs by (rewrite Hidx; exact Hinc).
    apply constant_run with (j := j); [|exact Hk].
    intros m Him Hmj.
    assert (S m < List.length (index (bt_z r))) as Hbound.
    { apply Nat.lt_trans with j; [exact Hmj|].
      apply nth_error_Some. rewrite Hj. discriminate. }
    destruct (nth_error (index (bt_z r)) (S m)) as [t|] eqn:Ht;
      [|apply nth_error_None in Ht; lia].
    assert (tr_entry_date tr < t)%Z as Hafter.
    { apply (sorted_nth_error _ Hs i (S m)); [lia | exact Hi | exact Ht]. }
    assert (t < tr_exit_date tr)%Z as Hbefore.
    { apply (sorted_nth_error _ Hs (S m) j); [lia | exact Ht | exact Hj]. }
    destruct (index (bt_z r)) as [|t0 ts] eqn:Hi0; [discriminate|].
    simpl in Ht, Hro.
    destruct (realized_only_nth _ _ _ _ Hro m t Ht)
      as (cm & cm1 & Hcm & Hcm1 & Hcase).
    rewrite HP. simpl. rewrite Hcm1, Hcm.
    destruct Hcase as [-> | (tr' & Hin' & Hx' & _)]; [reflexivity|].
    exfalso.
    pose proof (ledger_entry_before_exit _ Hsorted tr' Hin') as Hlt'.
    destruct (ledger_disjoint _ Hsorted tr tr' Hin Hin') as [<- | [Hd | Hd]]; lia.
  - intros k Hk.
    destruct (loop_prefix _ _ _ _ _ _ k _ _ Hloop) as (st_k & Hrun & Hrest).
    exists st_k. split; [exact Hrun|].
    destruct (loop_adds _ _ _ _ _ _ _ _ Hrun)
      as (caps_k & news_k & Hcaps_k & _ & Hlen_k & _ & Hlast_k & _).
    destruct (loop_adds _ _ _ _ _ _ _ _ Hrest)
      as (more & news' & Hmore & _).
    simpl in Hcaps_k, Hlast_k.
    assert (List.length caps_k = k) as Hk'.
    { rewrite Hlen_k, length_firstn. rewrite HP in Hk. simpl in Hk.
      rewrite Hlen in Hk. lia. }
    rewrite Hpnl, Hmore, Hcaps_k.
    rewrite nth_error_app1 by (simpl; lia).
    rewrite <- Hk' at 1. rewrite nth_error_last, Hlast_k. reflexivity.
Qed.
End Trajectory.

(** ** The pair scan *)

Section ScanFacts.
Context {num : Type} {NUM : Numeric num} {REG : Regression num}
        {ADF : Stationarity num}.

Lemma safe_price_cases (df : DataFrame num) :
  has_price df \/ safe_price df = Raise KeyError.
Proof.
  unfold has_price, safe_price.
  destruct (column "adj close" (normalise df)); [left; eauto|].
  destruct (column "close" (normalise df)); [left; eauto | right; reflexivity].
Qed.

(** *** The sort *)

Lemma insert_candidate_In (c : Candidate num) (l : list (Candidate num)) :
  forall d, In d (insert_candidate c l) <-> d = c \/ In d l.
Proof.
  induction l as [|e l IH]; intros d; simpl.
  - split; [intros [<- | []]; auto | intros [-> | []]; auto].
  - destruct (lt (adf_p_of c) (adf_p_of e)); simpl.
    + split; [intros [<- | H]; auto | intros [-> | H]; auto].
    + rewrite IH. split.
      * intros [<- | [-> | H]]; auto.
      * intros [-> | [<- | H]]; auto.
Qed.

Lemma insert_candidate_length (c : Candidate num) (l : list (Candidate num)) :
  List.length (insert_candidate c l) = S (List.length l).
Proof.
  induction l as [|e l IH]; simpl; [reflexivity|].
  destruct (lt (adf_p_of c) (adf_p_of e)); simpl; [reflexivity|].
  rewrite IH. reflexivity.
Qed.

Lemma insert_candidate_sorted {ASYM : Asymmetric num} (c : Candidate num)
    (l : list (Candidate num)) :
  sorted_by_pvalue l -> sorted_by_pvalue (insert_candidate c l).
Proof.
  unfold sorted_by_pvalue.
  induction l as [|e l IH]; intros Hs; simpl.
  - constructor; constructor.
  - destruct (lt (adf_p_of c) (adf_p_of e)) eqn:Hce.
    + constructor; [exact Hs|]. constructor. apply lt_asym. exact Hce.
    + inversion Hs as [|? ? Hs' Hhd]; subst.
      constructor; [apply IH; exact Hs'|].
      destruct l as [|f l]; simpl.
      * constructor. exact Hce.
      * destruct (lt (adf_p_of c) (adf_p_of f)); constructor;
          [exact Hce | inversion Hhd; assumption].
Qed.

Lemma sort_candidates_spec (l : list (Candidate num)) :
  forall acc,
    (forall d, In d (fold_left (fun a c => insert_candidate c a) l acc)
               <-> In d l \/ In d acc) /\
    List.length (fold_left (fun a c => insert_candidate c a) l acc)
      = List.length l + List.length acc.
Proof.
  induction l as [|c l IH]; intros acc; simpl.
  - split; [intros d; tauto | reflexivity].
  - destruct (IH (insert_candidate c acc)) as [HIn Hlen]. split.
    + intros d. rewrite HIn, insert_candidate_In. simpl.
      split; intros Hd; intuition (subst; auto).
    + rewrite Hlen, insert_candidate_length. lia.
Qed.

Lemma sort_candidates_In (l : list (Candidate num)) :
  forall d, In d (sort_candidates l) <-> In d l.
Proof.
  intros d. unfold sort_candidates.
  destruct (sort_candidates_spec l []) as [HIn _]. rewrite HIn. simpl. tauto.
Qed.

Lemma sort_candidates_length (l : list (Candidate num)) :
  List.length (sort_candidates l) = List.length l.
Proof.
  unfold sort_candidates.
  destruct (sort_candidates_spec l []) as [_ Hlen]. rewrite Hlen. simpl. lia.
Qed.

Lemma sort_candidates_sorted {ASYM : Asymmetric num} (l : list (Candidate num)) :
  sorted_by_pvalue (sort_candidates l).
Proof.
  unfold sort_candidates.
  assert (forall acc, sorted_by_pvalue acc ->
            sorted_by_pvalue (fold_left (fun a c => insert_candidate c a) l acc)) as H.
  { induction l as [|c l IH]; intros acc Hacc; simpl; [exact Hacc|].
    apply IH. apply insert_candidate_sorted. exact Hacc. }
  apply H. constructor.
Qed.
End ScanFacts.

Section ScanLoops.
Context {num : Type} {NUM : Numeric num} {REG : Regression num}
        {ADF : Stationarity num}.
Variables (data_dict : list (string * DataFrame num)).
Variables (significance : num) (max_pairs : Z).

Local Abbreviation inner := (inner_loop significance max_pairs).
Local Abbreviation outer := (outer_loop significance max_pairs).
Local Abbreviation known :=
  (fun d : string * DataFrame num => has_price (snd d) /\ In d data_dict).

Lemma full_false (l : list (Candidate num)) :
  full max_pairs l = false <-> (Z.of_nat (List.length l) < max_pairs)%Z.
Proof. unfold full. rewrite Z.leb_gt. reflexivity. Qed.

Lemma full_true (l : list (Candidate num)) :
  full max_pairs l = true <-> (max_pairs <= Z.of_nat (List.length l))%Z.
Proof. unfold full. rewrite Z.leb_le. reflexivity. Qed.

(** *** When every instrument has a price column *)

Lemma test_pair_ok (a b : string * DataFrame num) (cands : list (Candidate num)) :
  known a -> known b ->
  test_pair significance a b cands = Ok None \/
  test_pair significance a b cands = Ok (Some cands) \/
  exists c, test_pair significance a b cands = Ok (Some (cands ++ [c])) /\
            eligible data_dict significance c.
Proof.
  intros [[s_a Ha] Hina] [[s_b Hb] Hinb]. unfold test_pair.
  rewrite Ha, Hb. cbn [bind].
  destruct (List.length (concat_dropna s_a s_b) <? 250) eqn:Hlen; [left; reflexivity|].
  right. apply Nat.ltb_ge in Hlen.
  destruct (lt _ significance) eqn:Hlt; [right | left; reflexivity].
  eexists. split; [reflexivity|].
  destruct a as [na dfa], b as [nb dfb]. simpl in *.
  exists dfa, dfb, s_a, s_b. simpl. repeat split; auto.
Qed.

Lemma inner_loop_ok (a : string * DataFrame num) (rest : list (string * DataFrame num)) :
  known a -> Forall known rest ->
  forall cands,
    Forall (eligible data_dict significance) cands ->
    (Z.of_nat (List.length cands) < max_pairs)%Z ->
    exists cands',
      inner a rest cands = Ok cands' /\
      Forall (eligible data_dict significance) cands' /\
      (Z.of_nat (List.length cands') <= max_pairs)%Z.
Proof.
  intros Ha. induction rest as [|b rest IH]; intros Hrest cands Hel Hlen; cbn [inner_loop].
  - exists cands. repeat split; auto. lia.
  - inversion Hrest as [|? ? Hb Hrest']; subst.
    destruct (test_pair_ok a b cands Ha Hb) as [-> | [-> | (c & -> & Hc)]]; cbn [bind].
    + apply IH; assumption.
    + destruct (full max_pairs cands) eqn:Hfull.
      * apply full_true in Hfull. lia.
      * apply IH; assumption.
    + assert (Forall (eligible data_dict significance) (cands ++ [c])) as Hel'.
      { apply Forall_app. split; [exact Hel|]. constructor; [exact Hc | constructor]. }
      destruct (full max_pairs (cands ++ [c])) eqn:Hfull.
      * exists (cands ++ [c]). repeat split; auto.
        rewrite length_app. simpl. lia.
      * apply IH; [exact Hrest' | exact Hel' | apply full_false; exact Hfull].
Qed.

Lemma outer_loop_ok (keys : list (string * DataFrame num)) :
  Forall known keys ->
  forall cands,
    Forall (eligible data_dict significance) cands ->
    (Z.of_nat (List.length cands) < max_pairs)%Z ->
    exists cands',
      outer keys cands = Ok cands' /\
      Forall (eligible data_dict significance) cands' /\
      (Z.of_nat (List.length cands') <= max_pairs)%Z.
Proof.
  induction keys as [|a rest IH]; intros Hkeys cands Hel Hlen; cbn [outer_loop].
  - exists cands. repeat split; auto. lia.
  - inversion Hkeys as [|? ? Ha Hrest]; subst.
    destruct (inner_loop_ok a rest Ha Hrest cands Hel Hlen) as (c1 & -> & Hel1 & Hlen1).
    cbn [bind]. destruct (full max_pairs c1) eqn:Hfull.
    + exists c1. repeat split; auto.
    + apply IH; [exact Hrest | exact Hel1 | apply full_false; exact Hfull].
Qed.

(** *** Whatever the instruments: only KeyError is raised, and a pass that
    ends below the cap has asked every instrument for its prices *)

Lemma test_pair_raises (a b : string * DataFrame num) cands e :
  test_pair significance a b cands = Raise e -> e = KeyError.
Proof.
  unfold test_pair.
  destruct (safe_price_cases (snd a)) as [[s_a ->] | ->]; cbn [bind];
    [|intros H; inversion H; reflexivity].
  destruct (safe_price_cases (snd b)) as [[s_b ->] | ->]; cbn [bind];
    [|intros H; inversion H; reflexivity].
  destruct (_ <? 250); [discriminate|].
  destruct (lt _ significance); discriminate.
Qed.

Lemma test_pair_asks (a b : string * DataFrame num) cands tested :
  test_pair significance a b cands = Ok tested ->
  has_price (snd a) /\ has_price (snd b).
Proof.
  unfold test_pair.
  destruct (safe_price_cases (snd a)) as [[s_a Ha] | Ha]; rewrite Ha; cbn [bind];
    [|discriminate].
  destruct (safe_price_cases (snd b)) as [[s_b Hb] | Hb]; rewrite Hb; cbn [bind];
    [|discriminate].
  intros _. split; eexists; eassumption.
Qed.

Lemma inner_loop_raises (a : string * DataFrame num) (rest : list (string * DataFrame num)) :
  forall cands e, inner a rest cands = Raise e -> e = KeyError.
Proof.
  induction rest as [|b rest IH]; intros cands e; cbn [inner_loop]; [discriminate|].
  destruct (test_pair significance a b cands) as [[c1|]|e1] eqn:Ht; cbn [bind].
  - destruct (full max_pairs c1); [discriminate | apply IH].
  - apply IH.
  - intros H. inversion H; subst. eapply test_pair_raises. exact Ht.
Qed.

Lemma outer_loop_raises (keys : list (string * DataFrame num)) :
  forall cands e, outer keys cands = Raise e -> e = KeyError.
Proof.
  induction keys as [|a rest IH]; intros cands e; cbn [outer_loop]; [discriminate|].
  destruct (inner a rest cands) as [c1|e1] eqn:Hi; cbn [bind].
  - destruct (full max_pairs c1); [discriminate | apply IH].
  - intros H. inversion H; subst. eapply inner_loop_raises. exact Hi.
Qed.

Lemma inner_loop_asks (a : string * DataFrame num) (rest : list (string * DataFrame num)) :
  forall cands cands',
    inner a rest cands = Ok cands' ->
    (Z.of_nat (List.length cands') < max_pairs)%Z ->
    (rest <> [] -> has_price (snd a)) /\
    Forall (fun d => has_price (snd d)) rest.
Proof.
  induction rest as [|b rest IH]; intros cands cands' Hrun Hlen; cbn [inner_loop] in Hrun.
  - split; [intros H; contradiction | constructor].
  - destruct (test_pair significance a b cands) as [tested|e] eqn:Ht; cbn [bind] in Hrun;
      [|discriminate].
    destruct (test_pair_asks a b cands tested Ht) as [Ha Hb].
    assert (Forall (fun d => has_price (snd d)) rest) as Hrest.
    { destruct tested as [c1|].
      - destruct (full max_pairs c1) eqn:Hfull.
        + inversion Hrun; subst. apply full_true in Hfull. lia.
        + apply (IH c1 cands' Hrun Hlen).
      - apply (IH cands cands' Hrun Hlen). }
    split; [intros _; exact Ha | constructor; assumption].
Qed.

Lemma outer_loop_asks (keys : list (string * DataFrame num)) :
  forall cands cands',
    outer keys cands = Ok cands' ->
    (Z.of_nat (List.length cands') < max_pairs)%Z ->
    2 <= List.length keys ->
    Forall (fun d => has_price (snd d)) keys.
Proof.
  destruct keys as [|a [|b rest]]; intros cands cands' Hrun Hlen Hn; simpl in Hn; try lia.
  cbn [outer_loop] in Hrun.
  destruct (inner a (b :: rest) cands) as [c1|e] eqn:Hi; cbn [bind] in Hrun; [|discriminate].
  destruct (full max_pairs c1) eqn:Hfull.
  - inversion Hrun; subst. apply full_true in Hfull. lia.
  - apply full_false in Hfull.
    destruct (inner_loop_asks a (b :: rest) cands c1 Hi Hfull) as [Ha Hrest].
    constructor; [apply Ha; discriminate | exact Hrest].
Qed.
End ScanLoops.

(** ** find_cointegrated_pairs *)

Section ScanTheorems.
Context {num : Type} {NUM : Numeric num} {REG : Regression num}
        {ADF : Stationarity num}.

Lemma find_cointegrated_pairs_raises (data_dict : list (string * DataFrame num))
    (significance : num) (max_pairs : Z) (e : exn) :
  find_cointegrated_pairs data_dict significance max_pairs = Raise e -> e = KeyError.
Proof.
  unfold find_cointegrated_pairs.
  destruct (outer_loop significance max_pairs data_dict []) as [c|e1] eqn:Ho; cbn [bind];
    [discriminate|].
  intros H. inversion H; subst. eapply outer_loop_raises. exact Ho.
Qed.

(** C4, amended.  When every instrument of the universe has a usable price
    column and max_pairs is at least 1, the scan returns a list whose
    p-values never decrease from one candidate to the next, that holds at
    most max_pairs candidates, and whose candidates are pairs of the
    universe with at least 250 aligned observations and a p-value strictly
    below the significance level; shorter pairs are skipped and raise
    nothing. *)
Theorem find_cointegrated_pairs_sound {ASYM : Asymmetric num}
    (data_dict : list (string * DataFrame num))
    (significance : num) (max_pairs : Z) :
  Forall (fun d => has_price (snd d)) data_dict ->
  (1 <= max_pairs)%Z ->
  exists l,
    find_cointegrated_pairs data_dict significance max_pairs = Ok l /\
    sorted_by_pvalue l /\
    (Z.of_nat (List.length l) <= max_pairs)%Z /\
    Forall (eligible data_dict significance) l.
Proof.
  intros Hprice Hmax.
  assert (Forall (fun d => has_price (snd d) /\ In d data_dict) data_dict) as Hknown.
  { apply Forall_forall. intros d Hd. split; [|exact Hd].
    rewrite Forall_forall in Hprice. apply Hprice. exact Hd. }
  destruct (outer_loop_ok data_dict significance max_pairs data_dict Hknown [])
    as (cands & Hrun & Hel & Hlen).
  - constructor.
  - simpl. lia.
  - exists (sort_candidates cands). unfold find_cointegrated_pairs.
    rewrite Hrun. cbn [bind]. split; [reflexivity|]. split; [|split].
    + apply sort_candidates_sorted.
    + rewrite sort_candidates_length. exact Hlen.
    + apply Forall_forall. intros c Hc.
      rewrite Forall_forall in Hel. apply Hel.
      apply (proj1 (sort_candidates_In cands c)). exact Hc.
Qed.

(** C5, amended.  An instrument without a usable price column is not
    excluded from the scan: in a universe of at least two instruments that
    contains one, find_cointegrated_pairs either raises KeyError or returned
    early, with max_pairs candidates or more, before it had asked every
    instrument for its prices. *)
Theorem find_cointegrated_pairs_missing_price
    (data_dict : list (string * DataFrame num))
    (significance : num) (max_pairs : Z) :
  2 <= List.length data_dict ->
  (exists d, In d data_dict /\ safe_price (snd d) = Raise KeyError) ->
  find_cointegrated_pairs data_dict significance max_pairs = Raise KeyError \/
  exists l,
    find_cointegrated_pairs data_dict significance max_pairs = Ok l /\
    (max_pairs <= Z.of_nat (List.length l))%Z.
Proof.
  intros Hn (d & Hd & Hmiss).
  destruct (find_cointegrated_pairs data_dict significance max_pairs) as [l|e] eqn:Hfind.
  - right. exists l. split; [reflexivity|].
    destruct (Z.le_gt_cases max_pairs (Z.of_nat (List.length l))) as [Hle | Hlt];
      [exact Hle|].
    exfalso. unfold find_cointegrated_pairs in Hfind.
    destruct (outer_loop significance max_pairs data_dict []) as [cands|e] eqn:Ho;
      cbn [bind] in Hfind; [|discriminate].
    inversion Hfind; subst l. rewrite sort_candidates_length in Hlt.
    pose proof (outer_loop_asks significance max_pairs data_dict [] cands Ho Hlt Hn) as Hall.
    rewrite Forall_forall in Hall. destruct (Hall d Hd) as [s Hs].
    rewrite Hs in Hmiss. discriminate.
  - left. apply find_cointegrated_pairs_raises in Hfind. subst e. reflexivity.
Qed.
End ScanTheorems.

(** ** A spread with zero standard deviation *)

Section Degenerate.
Context {num : Type} {NUM : Numeric num} {MOM : Moments num} {REG : Regression num}.

End Degenerate.

(** ** The law of the order, in binary64 arithmetic

    From the specification of the comparison of binary64 numbers: [a < b]
    excludes [b < a], NaN included (it is below nothing and nothing is below
    it). *)

Lemma compare_cont_swap (p q : positive) :
  Pos.compare_cont Eq q p = CompOpp (Pos.compare_cont Eq p q).
Proof. rewrite (Pos.compare_cont_antisym p q Eq). reflexivity. Qed.

Lemma SFltb_asym (x y : spec_float) : SFltb x y = true -> SFltb y x = false.
Proof.
  unfold SFltb, SFcompare.
  destruct x as [sx | sx | | sx mx ex], y as [sy | sy | | sy my ey];
    try (destruct sx); try (destruct sy); try discriminate; try reflexivity.
  - rewrite (Z.compare_antisym ex ey).
    destruct (ex ?= ey)%Z; simpl; try discriminate; try reflexivity.
    rewrite (compare_cont_swap mx my).
    destruct (Pos.compare_cont Eq mx my); simpl; try discriminate; reflexivity.
  - rewrite (Z.compare_antisym ex ey).
    destruct (ex ?= ey)%Z; simpl; try discriminate; try reflexivity.
    rewrite (compare_cont_swap mx my).
    destruct (Pos.compare_cont Eq mx my); simpl; try discriminate; reflexivity.
Qed.

Lemma float_ltb_asym (a b : float) :
  PrimFloat.ltb a b = true -> PrimFloat.ltb b a = false.
Proof. rewrite !ltb_spec. apply SFltb_asym. Qed.

#[global] Instance binary64_asymmetric : Asymmetric float := float_ltb_asym.

(** * Worked examples on the test vectors *)

Module Examples.
Import Vectors.

(** The six-day pair: one LONG trade, entered on day 3 and closed on day 4,
    and a trajectory of six values. *)
Example demo_run :
  exists r,
    backtest_pair demo_x demo_y cash0 entry0 exit0 = Ok r /\
    map (@tr_position float) (bt_trades r) = ["LONG"%string] /\
    map (@tr_entry_date float) (bt_trades r) = [3%Z] /\
    map (@tr_exit_date float) (bt_trades r) = [4%Z] /\
    List.length (bt_pnl r) = 6.
Proof.
  eexists. split; [vm_compute; reflexivity|]. repeat split.
Qed.

(** The SHORT entry is tested first: with a negative entry threshold both
    entry guards hold at z = 0 and the position becomes SHORT_SPREAD. *)
Example short_entry_tested_first :
  gt 0%float (-1)%float = true /\ lt 0%float (neg (-1)%float) = true /\
  exists st,
    trade_logic demo_x demo_x cash0 (-1)%float exit0 (initial cash0) 2%Z 0%float 0%float
      = Ok st /\
    position st = SHORT_SPREAD.
Proof.
  repeat split. eexists. split; [vm_compute; reflexivity | reflexivity].
Qed.

(** With max_pairs = 1 the same universe as in the counterexample of C4
    yields one candidate: the cap is met. *)
Example cap_met_at_one :
  find_cointegrated_pairs (ADF := oracle 0.0078125%float)
                          long_universe significance0 1
    = Ok [("A"%string, "B"%string, 0.0078125%float)].
Proof. vm_compute. reflexivity. Qed.

Lemma demo_aligned : aligned demo_x demo_y.
Proof. reflexivity. Qed.

Lemma demo_increasing : increasing demo_x.
Proof. unfold increasing. simpl. repeat constructor. Qed.



(** C4, counterexample.  With max_pairs = 0 the scan of two instruments
    with 250 common observations and a p-value below the significance level
    returns one candidate: more than max_pairs. *)
Lemma cap_exceeded_at_zero :
  find_cointegrated_pairs (ADF := oracle 0.0078125%float)
                          long_universe significance0 0
    = Ok [("A"%string, "B"%string, 0.0078125%float)] /\
  (Z.of_nat (List.length [("A"%string, "B"%string, 0.0078125%float)]) <=? 0)%Z = false.
Proof.
  split; vm_compute; reflexivity.
Qed.

Lemma wide_universe_priced :
  Forall (fun d : string * DataFrame float => has_price (snd d)) wide_universe.
Proof.
  repeat constructor; eexists; vm_compute; reflexivity.
Qed.

(** The scan of three instruments: the pairs are tested in the order
    (A, B), (A, C), (B, C), all three pass, and the list comes back in the
    order of the p-values. *)
Example wide_universe_scan :
  exists l,
    find_cointegrated_pairs (ADF := residual_oracle) wide_universe significance0 10
      = Ok l /\
    map fst l = [("A", "C"); ("B", "C"); ("A", "B")]%string /\
    map (fun c => lt (adf_p_of c) significance0) l = [true; true; true] /\
    lt (adf_p_of (nth 0 l ("", "", 0%float)%string))
       (adf_p_of (nth 1 l ("", "", 0%float)%string)) = true /\
    lt (adf_p_of (nth 1 l ("", "", 0%float)%string))
       (adf_p_of (nth 2 l ("", "", 0%float)%string)) = true.
Proof.
  eexists. split; [vm_compute; reflexivity|]. repeat split.
Qed.

(** The amended C4 at the universe of three instruments, in binary64: the
    list returned holds three candidates. *)
Lemma find_cointegrated_pairs_sound_witness :
  Forall (fun d : string * DataFrame float => has_price (snd d)) wide_universe /\
  (1 <= 10)%Z /\
  exists l,
    find_cointegrated_pairs (ADF := residual_oracle) wide_universe significance0 10
      = Ok l /\
    sorted_by_pvalue l /\
    (Z.of_nat (List.length l) <= 10)%Z /\
    Forall (eligible (ADF := residual_oracle) wide_universe significance0) l.
Proof.
  refine ((fun (H1 : Forall _ wide_universe) (H2 : (1 <= 10)%Z) =>
             conj H1 (conj H2
               (find_cointegrated_pairs_sound (ADF := residual_oracle)
                  wide_universe significance0 10 H1 H2))) _ _).
  - exact wide_universe_priced.
  - discriminate.
Defined.

(** C5, counterexample.  The third instrument of [holed_universe] has no
    price column.  The scan does not leave it out and go on: it raises
    KeyError, although the pair of the two other instruments is sound. *)
Lemma missing_price_terminates_scan :
  safe_price (snd (nth 2 holed_universe (""%string, []))) = Raise KeyError /\
  find_cointegrated_pairs (ADF := oracle 0.0078125%float)
                          holed_universe significance0 10 = Raise KeyError.
Proof.
  split; vm_compute; reflexivity.
Qed.

(** The amended C5 at the universe with the instrument that has no price
    column. *)
Lemma find_cointegrated_pairs_missing_price_witness :
  2 <= List.length holed_universe /\
  (exists d, In d holed_universe /\ safe_price (snd d) = Raise KeyError) /\
  (find_cointegrated_pairs (ADF := oracle 0.0078125%float)
                           holed_universe significance0 10 = Raise KeyError \/
   exists l,
     find_cointegrated_pairs (ADF := oracle 0.0078125%float)
                             holed_universe significance0 10 = Ok l /\
     (10 <= Z.of_nat (List.length l))%Z).
Proof.
  refine ((fun H1 H2 =>
             conj H1 (conj H2
               (find_cointegrated_pairs_missing_price (ADF := oracle 0.0078125%float)
                  holed_universe significance0 10 H1 H2))) _ _).
  - simpl. lia.
  - exists ("C"%string, no_price_frame). split.
    + simpl. auto.
    + reflexivity.
Defined.

Lemma swing_aligned : aligned swing_x swing_y.
Proof. reflexivity. Qed.

Lemma swing_increasing : increasing swing_x.
Proof. unfold increasing. simpl. repeat constructor. Qed.

(** The twelve-day pair: a LONG trade entered on day 2 and held over days 3
    and 4 until it is closed on day 5, then a SHORT trade from day 6 to day
    7.  The trajectory keeps its value from day 2 to day 4 and changes on
    days 5 and 7 only. *)
Example swing_run :
  exists r c5 c7,
    backtest_pair swing_x swing_y cash0 entry0 exit0 = Ok r /\
    map (@tr_position float) (bt_trades r) = ["LONG"; "SHORT"]%string /\
    map (@tr_entry_date float) (bt_trades r) = [2%Z; 6%Z] /\
    map (@tr_exit_date float) (bt_trades r) = [5%Z; 7%Z] /\
    bt_pnl r = [cash0; cash0; cash0; cash0; c5; c5; c7; c7; c7; c7; c7; c7] /\
    lt cash0 c5 = true /\ lt c5 c7 = true.
Proof.
  do 3 eexists. split; [vm_compute; reflexivity|].
  split; [reflexivity|]. split; [reflexivity|]. split; [reflexivity|].
  split; [reflexivity|]. split; vm_compute; reflexivity.
Qed.

(** C6 at the twelve-day pair. *)
Lemma backtest_pair_trajectory_witness :
  aligned swing_x swing_y /\ swing_x <> [] /\ increasing swing_x /\
  exists r : Backtest float,
    backtest_pair swing_x swing_y cash0 entry0 exit0 = Ok r /\
    bt_z r = zscore (fst (compute_spread swing_x swing_y)) /\
    index (bt_z r) = index swing_x /\
    List.length (bt_pnl r) = List.length swing_x /\
    List.length (bt_pnl r) = List.length (bt_z r) /\
    hd_error (bt_pnl r) = Some cash0 /\
    realized_only (bt_trades r) (tl (index (bt_z r))) cash0 (tl (bt_pnl r)) /\
    (forall tr i j k,
       In tr (bt_trades r) ->
       nth_error (index (bt_z r)) i = Some (tr_entry_date tr) ->
       nth_error (index (bt_z r)) j = Some (tr_exit_date tr) ->
       i <= k < j ->
       nth_error (bt_pnl r) k = nth_error (bt_pnl r) i) /\
    (forall k, k < List.length (bt_pnl r) ->
       exists st_k,
         loop (bt_spread r) (bt_z r) cash0 entry0 exit0 (initial cash0)
              (firstn k (tl (rows (bt_spread r) (bt_z r)))) = Ok st_k /\
         nth_error (bt_pnl r) k = Some (capital st_k)).
Proof.
  refine ((fun (H2 : swing_x <> []) =>
             conj swing_aligned (conj H2 (conj swing_increasing
               (backtest_pair_trajectory swing_x swing_y cash0 entry0 exit0
                  swing_aligned H2 swing_increasing)))) _).
  discriminate.
Defined.


(** C8 at the twelve-day pair: two trades, the first closed on day 5, the
    second entered on day 6. *)
Lemma backtest_pair_positions_and_order_witness :
  aligned swing_x swing_y /\ increasing swing_x /\
  exists r : Backtest float,
    backtest_pair swing_x swing_y cash0 entry0 exit0 = Ok r /\
    (forall k, exists st_k,
       loop (bt_spread r) (bt_z r) cash0 entry0 exit0 (initial cash0)
            (firstn k (tl (rows (bt_spread r) (bt_z r)))) = Ok st_k /\
       valid_position (position st_k)) /\
    (forall i a b,
       nth_error (bt_trades r) i = Some a ->
       nth_error (bt_trades r) (S i) = Some b ->
       (tr_exit_date a < tr_entry_date b)%Z).
Proof.
  exact (conj swing_aligned (conj swing_increasing
           (backtest_pair_positions_and_order swing_x swing_y cash0 entry0 exit0
              swing_aligned swing_increasing))).
Defined.

(** C10 at the six-day pair. *)
Lemma backtest_pair_entry_before_exit_witness :
  aligned demo_x demo_y /\ increasing demo_x /\
  exists r : Backtest float,
    backtest_pair demo_x demo_y cash0 entry0 exit0 = Ok r /\
    forall tr, In tr (bt_trades r) -> (tr_entry_date tr < tr_exit_date tr)%Z.
Proof.
  exact (conj demo_aligned (conj demo_increasing
           (backtest_pair_entry_before_exit demo_x demo_y cash0 entry0 exit0
              demo_aligned demo_increasing))).
Defined.
End Examples.

(** * Further properties *)

(** ** Runs of the loop, row by row *)

Section Outcome.
Context {num : Type} {NUM : Numeric num} {MOM : Moments num}.
Variables (spread z : Series num).
Variables (cash entry_z exit_z : num).

Local Abbreviation run := (loop spread z cash entry_z exit_z).
Local Abbreviation step := (body spread z cash entry_z exit_z).

Lemma body_outcomes (st : state num) t s_i z_i st' :
  step st (t, s_i, z_i) = Ok st' ->
  body_outcome spread z cash entry_z exit_z st t s_i z_i st'.
Proof.
  unfold body. intros Hb.
  destruct (trade_logic spread z cash entry_z exit_z st t s_i z_i) as [st1|e] eqn:Htl;
    cbn [bind] in Hb; [|discriminate].
  inversion Hb; subst st'. clear Hb.
  unfold trade_logic in Htl.
  destruct (position st =? 0)%Z eqn:E0.
  - apply Z.eqb_eq in E0.
    destruct (gt z_i entry_z) eqn:Eg.
    + inversion Htl; subst. apply outcome_short; auto.
    + destruct (lt z_i (neg entry_z)) eqn:El; inversion Htl; subst.
      * apply outcome_long; auto.
      * apply outcome_wait; auto. unfold entry_fires. rewrite Eg, El. reflexivity.
  - assert (position st <> 0%Z) as Hne by (apply Z.eqb_neq; exact E0).
    destruct ((position st =? 1)%Z && gt z_i (neg exit_z))%bool eqn:E1.
    + apply close_settles in Htl.
      destruct Htl as (ep & ed & ez & Hep & Hed & Hloc & ->).
      apply andb_prop in E1. destruct E1 as [E1 Eg]. apply Z.eqb_eq in E1.
      apply outcome_close. unfold closing; simpl.
      repeat split; auto; left; repeat split; auto.
    + destruct ((position st =? -1)%Z && lt z_i exit_z)%bool eqn:E2.
      * apply close_settles in Htl.
        destruct Htl as (ep & ed & ez & Hep & Hed & Hloc & ->).
        apply andb_prop in E2. destruct E2 as [E2 El]. apply Z.eqb_eq in E2.
        apply outcome_close. unfold closing; simpl.
        repeat split; auto; right; repeat split; auto.
      * inversion Htl; subst. apply outcome_hold; [exact Hne|].
        unfold exit_fires. rewrite E1, E2. reflexivity.
Qed.

(** Induction over the rows a run has read. *)
Lemma loop_invariant (I : list (Timestamp * num * num) -> state num -> Prop)
    (st0 : state num) (rs : list (Timestamp * num * num)) :
  I [] st0 ->
  (forall done st row st',
     In row rs -> I done st -> step st row = Ok st' -> I (done ++ [row]) st') ->
  forall st', run st0 rs = Ok st' -> I rs st'.
Proof.
  intros H0 Hstep.
  assert (forall rs', incl rs' rs -> forall st', run st0 rs' = Ok st' -> I rs' st') as Hgen.
  { induction rs' as [|row rs' IH] using rev_ind; intros Hincl st' Hrun.
    - cbn [loop] in Hrun. inversion Hrun; subst. exact H0.
    - rewrite loop_app in Hrun.
      destruct (run st0 rs') as [st1|e] eqn:Hrs; cbn [bind loop] in Hrun; [|discriminate].
      destruct (step st1 row) as [st2|e] eqn:Hb; cbn [bind] in Hrun; [|discriminate].
      inversion Hrun; subst st2.
      apply (Hstep rs' st1 row st').
      + apply Hincl. apply in_or_app. right. left. reflexivity.
      + apply IH; [|reflexivity]. intros r Hr. apply Hincl. apply in_or_app. left. exact Hr.
      + exact Hb. }
  apply Hgen. apply incl_refl.
Qed.

(** *** Where the trades come from *)

Lemma traced_snoc (rs : list (Timestamp * num * num)) (row : Timestamp * num * num)
    (tr : Trade num) :
  traced entry_z exit_z rs tr -> traced entry_z exit_z (rs ++ [row]) tr.
Proof.
  intros (pre & r_in & mid & r_out & post & Hrs & H).
  exists pre, r_in, mid, r_out, (post ++ [row]). split; [|exact H].
  rewrite Hrs. rewrite <- !app_assoc. simpl. rewrite <- app_assoc. reflexivity.
Qed.

Lemma exit_fires_long (z_i : num) :
  exit_fires exit_z 1 z_i = exit_test exit_z "LONG" z_i.
Proof.
  unfold exit_fires, exit_test. simpl. apply orb_false_r.
Qed.

Lemma exit_fires_short (z_i : num) :
  exit_fires exit_z (-1) z_i = exit_test exit_z "SHORT" z_i.
Proof. reflexivity. Qed.

Lemma provenance_step (done : list (Timestamp * num * num)) (st : state num)
    (row : Timestamp * num * num) (st' : state num) :
  open_traced entry_z exit_z done st /\
  Forall (traced entry_z exit_z done) (trades st) ->
  step st row = Ok st' ->
  open_traced entry_z exit_z (done ++ [row]) st' /\
  Forall (traced entry_z exit_z (done ++ [row])) (trades st').
Proof.
  intros [Hopen Htr] Hb. destruct row as [[t s_i] z_i].
  apply body_outcomes in Hb.
  assert (Forall (traced entry_z exit_z (done ++ [(t, s_i, z_i)])) (trades st)) as Htr'.
  { eapply Forall_impl; [|exact Htr]. intros tr. apply traced_snoc. }
  destruct Hb as [H0 Hg | H0 Hg Hl | H0 Hf | tr Hc | Hne Hf]; simpl.
  - split; [|exact Htr']. right.
    exists done, (t, s_i, z_i), [], "SHORT"%string. simpl.
    repeat split; auto. left. auto.
  - split; [|exact Htr']. right.
    exists done, (t, s_i, z_i), [], "LONG"%string. simpl.
    repeat split; auto. right. auto.
  - split; [left; exact H0 | exact Htr'].
  - split; [left; reflexivity|].
    apply Forall_app. split; [exact Htr'|]. constructor; [|constructor].
    destruct Hc as (Hed & Hep & Hxd & Hxs & Hxz & _ & Hdir).
    destruct Hopen as [Hflat | (pre & r_in & mid & direction & Hdone & Hd & Hp & Hpos & Hrule & Hmid)].
    { destruct Hdir as [(Hp1 & _) | (Hp1 & _)]; rewrite Hflat in Hp1; discriminate. }
    rewrite Hd in Hed. inversion Hed as [Hed']. rewrite Hp in Hep. inversion Hep as [Hep'].
    assert (tr_position tr = direction /\ exit_test exit_z direction z_i = true) as [Hlabel Hexit].
    { destruct Hdir as [(Hp1 & Hgz & Hlab & _) | (Hp1 & Hlz & Hlab & _)];
        destruct Hpos as [[Hp2 ->] | [Hp2 ->]]; rewrite Hp1 in Hp2; try discriminate;
        split; auto. }
    exists pre, r_in, mid, (t, s_i, z_i), []. simpl.
    rewrite Hlabel, Hdone, <- app_assoc. simpl. repeat split; auto.
  - split; [|exact Htr'].
    destruct Hopen as [Hflat | (pre & r_in & mid & direction & Hdone & Hd & Hp & Hpos & Hrule & Hmid)];
      [contradiction|].
    right. exists pre, r_in, (mid ++ [(t, s_i, z_i)]), direction.
    rewrite Hdone, <- app_assoc. simpl. repeat split; auto.
    apply Forall_app. split; [exact Hmid|]. constructor; [|constructor]. simpl.
    destruct Hpos as [[Hp1 ->] | [Hp1 ->]]; rewrite Hp1 in Hf.
    + rewrite <- exit_fires_long. exact Hf.
    + rewrite <- exit_fires_short. exact Hf.
Qed.

Lemma loop_provenance (rs : list (Timestamp * num * num)) (st' : state num) :
  run (initial cash) rs = Ok st' ->
  open_traced entry_z exit_z rs st' /\
  Forall (traced entry_z exit_z rs) (trades st').
Proof.
  apply (loop_invariant
           (fun done st => open_traced entry_z exit_z done st /\
                           Forall (traced entry_z exit_z done) (trades st))).
  - split; [left; reflexivity | constructor].
  - intros done st row st1 _. apply provenance_step.
Qed.

(** *** The entry z-score of a trade is read at its entry date *)

Lemma loop_entry_z (rs : list (Timestamp * num * num)) (st' : state num) :
  run (initial cash) rs = Ok st' ->
  Forall (fun tr => loc z (tr_entry_date tr) = Ok (tr_entry_z tr)) (trades st').
Proof.
  apply (loop_invariant
           (fun _ st => Forall (fun tr => loc z (tr_entry_date tr) = Ok (tr_entry_z tr))
                               (trades st))).
  - constructor.
  - intros done st [[t s_i] z_i] st1 _ Htr Hb. apply body_outcomes in Hb.
    destruct Hb as [H0 Hg | H0 Hg Hl | H0 Hf | tr Hc | Hne Hf]; simpl; auto.
    apply Forall_app. split; [exact Htr|]. constructor; [|constructor].
    destruct Hc as (_ & _ & _ & _ & _ & Hloc & _). exact Hloc.
Qed.

(** *** A strategy that is never triggered *)

Lemma loop_never_triggered (rs : list (Timestamp * num * num)) (st' : state num) :
  Forall (fun row => entry_fires entry_z (snd row) = false) rs ->
  run (initial cash) rs = Ok st' ->
  position st' = 0%Z /\ trades st' = [] /\ capital st' = cash /\
  pnl st' = cash :: repeat cash (List.length rs).
Proof.
  intros Hquiet.
  apply (loop_invariant
           (fun done st => position st = 0%Z /\ trades st = [] /\ capital st = cash /\
                           pnl st = cash :: repeat cash (List.length done))).
  - repeat split.
  - intros done st [[t s_i] z_i] st1 Hin (Hp & Ht & Hc & Hpnl) Hb.
    rewrite Forall_forall in Hquiet. specialize (Hquiet _ Hin). simpl in Hquiet.
    unfold entry_fires in Hquiet. apply orb_false_elim in Hquiet.
    destruct Hquiet as [Hg Hl].
    apply body_outcomes in Hb.
    destruct Hb as [H0 Hg' | H0 Hg' Hl' | H0 Hf | tr Hcl | Hne Hf]; simpl.
    + rewrite Hg in Hg'. discriminate.
    + rewrite Hl in Hl'. discriminate.
    + repeat split; auto. rewrite Hpnl, Hc, length_app. simpl.
      rewrite Nat.add_1_r. rewrite <- repeat_cons. reflexivity.
    + destruct Hcl as (_ & _ & _ & _ & _ & _ & [(Hp1 & _) | (Hp1 & _)]);
        rewrite Hp in Hp1; discriminate.
    + contradiction.
Qed.
End Outcome.

(** ** The ledger of backtest_pair, trade by trade *)

Section LedgerFacts.
Context {num : Type} {NUM : Numeric num} {MOM : Moments num} {REG : Regression num}.

Lemma rows_series_map_in (f : num -> num) (spread : Series num)
    (row : Timestamp * num * num) :
  In row (rows spread (series_map f spread)) ->
  In (fst (fst row), snd row) (series_map f spread).
Proof.
  unfold rows, values, series_map.
  induction spread as [|[t s] spread IH]; simpl; [tauto|].
  intros [<- | Hin]; [left; reflexivity | right; apply IH; exact Hin].
Qed.

Lemma rows_series_map_tl (f : num -> num) (spread : Series num) :
  tl (rows spread (series_map f spread)) =
  rows (tl spread) (series_map f (tl spread)).
Proof. destruct spread as [|[t s] spread]; reflexivity. Qed.

Lemma rows_tl_in (spread : Series num) (row : Timestamp * num * num) :
  In row (tl (rows spread (zscore spread))) ->
  In (fst (fst row), snd row) (tl (zscore spread)).
Proof.
  unfold zscore. rewrite rows_series_map_tl. intros Hin.
  apply rows_series_map_in in Hin.
  destruct spread as [|a spread]; exact Hin.
Qed.

Lemma sorted_NoDup (l : list Z) : StronglySorted Z.lt l -> NoDup l.
Proof.
  induction l as [|a l IH]; intros Hs; [constructor|].
  inversion Hs as [|? ? Hs' Ha]; subst. constructor; [|apply IH; exact Hs'].
  intros Hin. rewrite Forall_forall in Ha. specialize (Ha a Hin). lia.
Qed.

Lemma filter_absent (s : Series num) (t : Timestamp) :
  ~ In t (index s) -> filter (fun r => Z.eqb (fst r) t) s = [].
Proof.
  induction s as [|[t' v'] s IH]; intros Hnotin; [reflexivity|]. simpl.
  destruct (Z.eqb_spec t' t) as [-> | Hne].
  - exfalso. apply Hnotin. left. reflexivity.
  - apply IH. intros Hin. apply Hnotin. right. exact Hin.
Qed.

Lemma filter_unique (s : Series num) (t : Timestamp) (v : num) :
  NoDup (index s) -> In (t, v) s ->
  filter (fun r => Z.eqb (fst r) t) s = [(t, v)].
Proof.
  induction s as [|[t' v'] s IH]; intros Hnd Hin; [destruct Hin|].
  simpl in Hnd. inversion Hnd as [|? ? Hnotin Hnd']; subst.
  simpl. destruct Hin as [Heq | Hin].
  - inversion Heq; subst. rewrite Z.eqb_refl. f_equal.
    apply filter_absent. exact Hnotin.
  - destruct (Z.eqb_spec t' t) as [-> | Hne].
    + exfalso. apply Hnotin. apply in_map_iff. exists (t, v).
      split; [reflexivity | exact Hin].
    + apply IH; assumption.
Qed.

Lemma loc_unique (s : Series num) (t : Timestamp) (v : num) :
  NoDup (index s) -> In (t, v) s -> loc s t = Ok (Scalar v).
Proof.
  intros Hnd Hin. unfold loc. rewrite (filter_unique s t v Hnd Hin). reflexivity.
Qed.
(** X1.  Every trade of the ledger is made of two rows the loop has read,
    from the second row of the series on: it was entered at a row where the
    entry rule of its direction fired, held over rows at none of which its
    exit test succeeded, and closed at the first row at which it did; its
    dates, spreads and exit z-score are those of the two rows. *)
Theorem backtest_pair_trades_traced
    (x y : Series num) (cash entry_z exit_z : num) :
  exists r : Backtest num,
    backtest_pair x y cash entry_z exit_z = Ok r /\
    Forall (traced entry_z exit_z (tl (rows (bt_spread r) (bt_z r))))
           (bt_trades r).
Proof.
  destruct (backtest_pair_defined x y cash entry_z exit_z)
    as (st & r & Hr & _ & _ & _ & Htr & _ & Hloop & _).
  exists r. split; [exact Hr|]. rewrite Htr.
  apply (loop_provenance _ _ _ _ _ _ _ Hloop).
Qed.

(** X2.  When no z-score after the first observation is beyond the entry
    threshold on either side (NaN z-scores included), the ledger is empty
    and the trajectory is the initial capital repeated, once per row. *)
Theorem backtest_pair_never_triggered
    (x y : Series num) (cash entry_z exit_z : num) :
  Forall (fun r => entry_fires entry_z (snd r) = false)
         (tl (zscore (fst (compute_spread x y)))) ->
  exists r : Backtest num,
    backtest_pair x y cash entry_z exit_z = Ok r /\
    bt_trades r = [] /\
    bt_pnl r = cash :: repeat cash (List.length (tl (bt_z r))).
Proof.
  intros Hquiet.
  destruct (backtest_pair_defined x y cash entry_z exit_z)
    as (st & r & Hr & Hsp & Hz & _ & Htr & Hpnl & Hloop & _).
  exists r. split; [exact Hr|].
  assert (Forall (fun row : Timestamp * num * num =>
                    entry_fires entry_z (snd row) = false)
                 (tl (rows (bt_spread r) (bt_z r)))) as Hrows.
  { apply Forall_forall. intros row Hin. rewrite Hz in Hin.
    apply rows_tl_in in Hin. rewrite Hsp in Hin.
    rewrite Forall_forall in Hquiet. apply (Hquiet _ Hin). }
  destruct (loop_never_triggered _ _ _ _ _ _ _ Hrows Hloop) as (_ & Ht & _ & Hp).
  split; [rewrite Htr; exact Ht|].
  rewrite Hpnl, Hp. f_equal. f_equal.
  rewrite <- (length_map (fun r0 : Timestamp * num * num => fst (fst r0))).
  rewrite map_tl, Hz, rows_timestamps.
  unfold zscore, series_map, index.
  destruct (bt_spread r); simpl; [reflexivity|]. rewrite !length_map. reflexivity.
Qed.

(** X3.  On aligned series with increasing timestamps every trade records
    the z-score of its entry date as a scalar, that z-score satisfies the
    entry rule of the trade's direction, and the recorded exit z-score
    satisfies its exit test; both are z-scores of the series after its first
    observation, at the trade's dates. *)
Theorem backtest_pair_recorded_z_scores
    (x y : Series num) (cash entry_z exit_z : num) :
  aligned x y -> increasing x ->
  exists r : Backtest num,
    backtest_pair x y cash entry_z exit_z = Ok r /\
    forall tr, In tr (bt_trades r) ->
      exists z_in,
        tr_entry_z tr = Scalar z_in /\
        In (tr_entry_date tr, z_in) (tl (bt_z r)) /\
        entry_rule entry_z (tr_position tr) z_in /\
        In (tr_exit_date tr, tr_exit_z tr) (tl (bt_z r)) /\
        exit_test exit_z (tr_position tr) (tr_exit_z tr) = true.
Proof.
  intros Hal Hinc.
  destruct (backtest_pair_defined x y cash entry_z exit_z)
    as (st & r & Hr & Hsp & Hz & _ & Htr & _ & Hloop & _).
  exists r. split; [exact Hr|].
  assert (NoDup (index (bt_z r))) as Hnd.
  { rewrite Hz, index_zscore, Hsp, index_compute_spread by exact Hal.
    apply sorted_NoDup. exact Hinc. }
  destruct (loop_provenance _ _ _ _ _ _ _ Hloop) as [_ Htraced].
  pose proof (loop_entry_z _ _ _ _ _ _ _ Hloop) as Hlocs.
  rewrite <- Htr in Htraced, Hlocs. rewrite Forall_forall in Htraced, Hlocs.
  intros tr Hin.
  destruct (Htraced tr Hin)
    as (pre & r_in & mid & r_out & post & Hrs & Hed & _ & Hrule & _ & Hxd & _ & Hxz & Hexit).
  assert (In r_in (tl (rows (bt_spread r) (bt_z r)))) as Hin_in.
  { rewrite Hrs. apply in_or_app. right. left. reflexivity. }
  assert (In r_out (tl (rows (bt_spread r) (bt_z r)))) as Hin_out.
  { rewrite Hrs. apply in_or_app. right. right. apply in_or_app. right. left. reflexivity. }
  rewrite Hz in Hin_in, Hin_out. apply rows_tl_in in Hin_in, Hin_out.
  rewrite <- Hz in Hin_in, Hin_out. rewrite <- Hed in Hin_in. rewrite <- Hxd, <- Hxz in Hin_out.
  exists (snd r_in). repeat split; auto.
  - specialize (Hlocs tr Hin). simpl in Hlocs.
    assert (In (tr_entry_date tr, snd r_in) (bt_z r)) as Hfull.
    { destruct (bt_z r); [destruct Hin_in | right; exact Hin_in]. }
    rewrite (loc_unique _ _ _ Hnd Hfull) in Hlocs. inversion Hlocs. reflexivity.
  - rewrite Hxz. exact Hexit.
Qed.
End LedgerFacts.

(** ** safe_price: the error case, and the renamed frame *)

Section SafePriceFacts.
Context {num : Type}.

Lemma column_None (key : string) (df : DataFrame num) :
  column key df = None <-> ~ In key (map fst df).
Proof.
  induction df as [|[name c] df IH]; simpl.
  - split; [intros _ H; exact H | reflexivity].
  - destruct (String.eqb_spec key name) as [-> | Hne].
    + split; [discriminate | intros H; exfalso; apply H; left; reflexivity].
    + rewrite IH. split.
      * intros H [Heq | Hin]; [apply Hne; symmetry; exact Heq | exact (H Hin)].
      * intros H Hin. apply H. right. exact Hin.
Qed.

(** X4.  safe_price raises KeyError exactly when, once the column names are
    lower-cased and stripped, none of them is "adj close" and none is
    "close". *)
Theorem safe_price_KeyError_iff (df : DataFrame num) :
  safe_price df = Raise KeyError <->
  ~ In "adj close"%string (map (fun c => strip (lower (fst c))) df) /\
  ~ In "close"%string (map (fun c => strip (lower (fst c))) df).
Proof.
  assert (map fst (normalise df) = map (fun c => strip (lower (fst c))) df) as Hnames.
  { unfold normalise. rewrite map_map. reflexivity. }
  rewrite <- Hnames, <- !column_None. unfold safe_price.
  destruct (column "adj close" (normalise df)); [split; [discriminate | intros [H _]; discriminate]|].
  destruct (column "close" (normalise df)); [split; [discriminate | intros [_ H]; discriminate]|].
  split; auto.
Qed.

(** *** Normalising a name twice changes nothing *)

Lemma is_space_lower_char (c : ascii) : is_space (lower_char c) = is_space c.
Proof. destruct c as [[] [] [] [] [] [] [] []]; reflexivity. Qed.

Lemma lower_char_idem (c : ascii) : lower_char (lower_char c) = lower_char c.
Proof. destruct c as [[] [] [] [] [] [] [] []]; reflexivity. Qed.

Lemma lower_idem (s : string) : lower (lower s) = lower s.
Proof.
  induction s as [|c s IH]; simpl; [reflexivity|].
  rewrite lower_char_idem, IH. reflexivity.
Qed.

Lemma lower_lstrip (s : string) : lower (lstrip s) = lstrip (lower s).
Proof.
  induction s as [|c s IH]; simpl; [reflexivity|].
  rewrite is_space_lower_char. destruct (is_space c); [exact IH | reflexivity].
Qed.

Lemma lower_rstrip (s : string) : lower (rstrip s) = rstrip (lower s).
Proof.
  induction s as [|c s IH]; simpl; [reflexivity|].
  rewrite <- IH, is_space_lower_char.
  destruct (rstrip s) as [|d r]; simpl; [destruct (is_space c); reflexivity | reflexivity].
Qed.

Lemma lower_strip (s : string) : lower (strip s) = strip (lower s).
Proof. unfold strip. rewrite lower_rstrip, lower_lstrip. reflexivity. Qed.

Lemma lstrip_no_leading_space (s : string) : no_leading_space (lstrip s).
Proof.
  induction s as [|c s IH]; simpl; [exact I|].
  destruct (is_space c) eqn:Hc; [exact IH | simpl; exact Hc].
Qed.

Lemma rstrip_no_leading_space (s : string) :
  no_leading_space s -> no_leading_space (rstrip s).
Proof.
  destruct s as [|c s]; simpl; [trivial|]. intros Hc.
  destruct (rstrip s); [rewrite Hc|]; simpl; exact Hc.
Qed.

Lemma lstrip_fixed (s : string) : no_leading_space s -> lstrip s = s.
Proof.
  destruct s as [|c s]; simpl; [reflexivity|]. intros Hc. rewrite Hc. reflexivity.
Qed.

Lemma rstrip_idem (s : string) : rstrip (rstrip s) = rstrip s.
Proof.
  induction s as [|c s IH]; simpl; [reflexivity|].
  destruct (rstrip s) as [|d r] eqn:Hr.
  - destruct (is_space c) eqn:Hc; simpl; [reflexivity | rewrite Hc; reflexivity].
  - change (rstrip (String c (String d r))) with
      (match rstrip (String d r) with
       | EmptyString => if is_space c then EmptyString else String c EmptyString
       | r' => String c r'
       end).
    rewrite IH. reflexivity.
Qed.

Lemma strip_idem (s : string) : strip (strip s) = strip s.
Proof.
  unfold strip.
  rewrite (lstrip_fixed (rstrip (lstrip s))).
  - apply rstrip_idem.
  - apply rstrip_no_leading_space. apply lstrip_no_leading_space.
Qed.

Lemma normalise_name_idem (s : string) :
  strip (lower (strip (lower s))) = strip (lower s).
Proof. rewrite lower_strip, lower_idem, strip_idem. reflexivity. Qed.

(** X5.  safe_price stores the normalised names back into the frame.  On
    a frame so renamed the names are left as they are, and safe_price
    returns what it returned the first time: asking one frame for its prices
    again and again, as the scan does, always gives the same answer. *)
Theorem safe_price_on_renamed_frame (df : DataFrame num) :
  normalise (normalise df) = normalise df /\
  safe_price (normalise df) = safe_price df.
Proof.
  assert (normalise (normalise df) = normalise df) as Hn.
  { unfold normalise. rewrite map_map. apply map_ext. intros [name c]. simpl.
    rewrite normalise_name_idem. reflexivity. }
  split; [exact Hn|]. unfold safe_price. rewrite Hn. reflexivity.
Qed.
End SafePriceFacts.

(** ** The scan, whatever the universe and the cap *)

Section ScanAny.
Context {num : Type} {NUM : Numeric num} {REG : Regression num}
        {ADF : Stationarity num}.
Variables (data_dict : list (string * DataFrame num)).
Variables (significance : num) (max_pairs : Z).

Local Abbreviation inner := (inner_loop significance max_pairs).
Local Abbreviation outer := (outer_loop significance max_pairs).

(** What a test that returns has done to the candidates. *)
Lemma test_pair_returns (a b : string * DataFrame num)
    (cands : list (Candidate num)) (tested : option (list (Candidate num))) :
  test_pair significance a b cands = Ok tested ->
  (tested = None /\
   forall p, ~ accepted significance a b p) \/
  (tested = Some cands /\
   forall p, ~ accepted significance a b p) \/
  exists p, tested = Some (cands ++ [(fst a, fst b, p)]) /\
            accepted significance a b p.
Proof.
  unfold test_pair, accepted.
  destruct (safe_price (snd a)) as [s_a|e] eqn:Ha; cbn [bind]; [|discriminate].
  destruct (safe_price (snd b)) as [s_b|e] eqn:Hb; cbn [bind]; [|discriminate].
  destruct (List.length (concat_dropna s_a s_b) <? 250) eqn:Hlen.
  - intros H. inversion H. left. split; [reflexivity|].
    intros p (s_a' & s_b' & Ha' & Hb' & Hlen' & _).
    inversion Ha'; subst s_a'. inversion Hb'; subst s_b'.
    apply Nat.ltb_lt in Hlen. lia.
  - apply Nat.ltb_ge in Hlen.
    destruct (lt _ significance) eqn:Hlt; intros H; inversion H; subst; right.
    + right. eexists. split; [reflexivity|].
      exists s_a, s_b. repeat split; auto.
    + left. split; [reflexivity|].
      intros p (s_a' & s_b' & Ha' & Hb' & _ & Hp & Hacc).
      inversion Ha'; subst s_a'. inversion Hb'; subst s_b'.
      rewrite <- Hp in Hlt. rewrite Hlt in Hacc. discriminate.
Qed.

Lemma accepted_eligible (a b : string * DataFrame num) (p : num) :
  In a data_dict -> In b data_dict -> accepted significance a b p ->
  eligible data_dict significance (fst a, fst b, p).
Proof.
  intros Hina Hinb (s_a & s_b & Ha & Hb & Hlen & Hp & Hlt).
  destruct a as [na dfa], b as [nb dfb]. simpl in *.
  exists dfa, dfb, s_a, s_b. simpl. repeat split; auto.
Qed.

(** The candidates a loop adds: eligible pairs of [a] with instruments of
    [rest], in the order of [rest]; and the size of the list it returns. *)
Lemma inner_loop_adds (a : string * DataFrame num) (rest : list (string * DataFrame num)) :
  forall cands cands',
    inner a rest cands = Ok cands' ->
    (Z.of_nat (List.length cands) < Z.max max_pairs 1)%Z ->
    exists news,
      cands' = cands ++ news /\
      subseq (map fst news) (map (fun b => (fst a, fst b)) rest) /\
      (forall c, In c news -> exists b, In b rest /\ fst (fst c) = fst a /\
                              snd (fst c) = fst b /\ accepted significance a b (snd c)) /\
      (Z.of_nat (List.length cands') <= Z.max max_pairs 1)%Z.
Proof.
  induction rest as [|b rest IH]; intros cands cands' Hrun Hlen; cbn [inner_loop] in Hrun.
  - inversion Hrun; subst. exists []. rewrite app_nil_r.
    repeat split; [constructor | intros c [] | lia].
  - destruct (test_pair significance a b cands) as [tested|e] eqn:Ht; cbn [bind] in Hrun;
      [|discriminate].
    destruct (test_pair_returns a b cands tested Ht)
      as [[-> _] | [[-> _] | (p & -> & Hacc)]].
    + destruct (IH cands cands' Hrun Hlen) as (news & Hc & Hsub & Hall & Hbound).
      exists news. repeat split; auto.
      * simpl. apply subseq_skip. exact Hsub.
      * intros c Hc'. destruct (Hall c Hc') as (b' & Hb' & H).
        exists b'. split; [right; exact Hb' | exact H].
    + destruct (full max_pairs cands) eqn:Hfull.
      * inversion Hrun; subst. exists []. rewrite app_nil_r.
        repeat split; [ | intros c [] | lia].
        simpl. apply subseq_skip.
        clear. induction rest; simpl; constructor; assumption.
      * destruct (IH cands cands' Hrun Hlen) as (news & Hc & Hsub & Hall & Hbound).
        exists news. repeat split; auto.
        -- simpl. apply subseq_skip. exact Hsub.
        -- intros c Hc'. destruct (Hall c Hc') as (b' & Hb' & H).
           exists b'. split; [right; exact Hb' | exact H].
    + assert (forall c, In c [(fst a, fst b, p)] ->
                exists b0, In b0 (b :: rest) /\ fst (fst c) = fst a /\
                           snd (fst c) = fst b0 /\ accepted significance a b0 (snd c)) as Hnew.
      { intros c [<- | []]. exists b. simpl. repeat split; auto. }
      destruct (full max_pairs (cands ++ [(fst a, fst b, p)])) eqn:Hfull.
      * inversion Hrun; subst. exists [(fst a, fst b, p)].
        repeat split; auto.
        -- simpl. apply subseq_keep.
           clear. induction rest; simpl; constructor; assumption.
        -- rewrite length_app. simpl. lia.
      * apply (proj1 (full_false max_pairs _)) in Hfull.
        destruct (IH _ cands' Hrun) as (news & Hc & Hsub & Hall & Hbound); [lia|].
        exists ((fst a, fst b, p) :: news). repeat split; auto.
        -- rewrite Hc, <- app_assoc. reflexivity.
        -- simpl. apply subseq_keep. exact Hsub.
        -- intros c [<- | Hc']; [apply Hnew; left; reflexivity|].
           destruct (Hall c Hc') as (b' & Hb' & H).
           exists b'. split; [right; exact Hb' | exact H].
Qed.

Lemma subseq_nil_l {A : Type} (l : list A) : subseq [] l.
Proof. induction l; constructor; assumption. Qed.

Lemma subseq_app {A : Type} (l1 m1 l2 m2 : list A) :
  subseq l1 m1 -> subseq l2 m2 -> subseq (l1 ++ l2) (m1 ++ m2).
Proof.
  intros H1 H2. induction H1; simpl; [exact H2 | constructor | constructor]; assumption.
Qed.

Lemma subseq_In {A : Type} (l l' : list A) :
  subseq l l' -> forall x, In x l -> In x l'.
Proof.
  intros H. induction H; intros x Hx; simpl in *; [exact Hx | right; auto |].
  destruct Hx as [-> | Hx]; [left; reflexivity | right; auto].
Qed.

Lemma subseq_NoDup {A : Type} (l l' : list A) :
  subseq l l' -> NoDup l' -> NoDup l.
Proof.
  intros H. induction H; intros Hnd; [constructor | |].
  - inversion Hnd; auto.
  - inversion Hnd as [|? ? Hnotin Hnd']; subst. constructor; [|auto].
    intros Hin. apply Hnotin. eapply subseq_In; eauto.
Qed.

Lemma all_pairs_In {A : Type} (l : list A) (a b : A) :
  In (a, b) (all_pairs l) ->
  exists pre mid post, l = pre ++ a :: mid ++ b :: post.
Proof.
  induction l as [|c l IH]; simpl; [intros []|].
  intros Hin. apply in_app_or in Hin. destruct Hin as [Hin | Hin].
  - apply in_map_iff in Hin. destruct Hin as (b' & Heq & Hb). inversion Heq; subst.
    apply in_split in Hb. destruct Hb as (mid & post & ->).
    exists [], mid, post. reflexivity.
  - destruct (IH Hin) as (pre & mid & post & ->).
    exists (c :: pre), mid, post. reflexivity.
Qed.

Lemma all_pairs_NoDup {A : Type} (l : list A) : NoDup l -> NoDup (all_pairs l).
Proof.
  induction l as [|c l IH]; intros Hnd; simpl; [constructor|].
  inversion Hnd as [|? ? Hnotin Hnd']; subst.
  apply NoDup_app.
  - clear -Hnd'. induction Hnd' as [|b l Hb Hnd IHl]; simpl; constructor; [|exact IHl].
    intros Hin. apply in_map_iff in Hin. destruct Hin as (b' & Heq & Hb').
    inversion Heq; subst. exact (Hb Hb').
  - apply IH. exact Hnd'.
  - intros [a b] Hin1 Hin2. apply in_map_iff in Hin1.
    destruct Hin1 as (b' & Heq & _). inversion Heq; subst.
    destruct (all_pairs_In l a b Hin2) as (pre & mid & post & ->).
    apply Hnotin. apply in_or_app. right. left. reflexivity.
Qed.

Lemma all_pairs_distinct {A : Type} (l : list A) (a b : A) :
  NoDup l -> In (a, b) (all_pairs l) -> a <> b.
Proof.
  intros Hnd Hin Heq. subst b.
  destruct (all_pairs_In l a a Hin) as (pre & mid & post & ->).
  apply NoDup_remove_2 in Hnd. apply Hnd.
  apply in_or_app. right. apply in_or_app. right. left. reflexivity.
Qed.

Lemma outer_loop_adds (keys : list (string * DataFrame num)) :
  forall cands cands',
    outer keys cands = Ok cands' ->
    (Z.of_nat (List.length cands) < Z.max max_pairs 1)%Z ->
    exists news,
      cands' = cands ++ news /\
      subseq (map fst news) (all_pairs (map fst keys)) /\
      (forall c, In c news ->
         exists a b, In a keys /\ In b keys /\ fst (fst c) = fst a /\
                     snd (fst c) = fst b /\ accepted significance a b (snd c)) /\
      (Z.of_nat (List.length cands') <= Z.max max_pairs 1)%Z.
Proof.
  induction keys as [|a rest IH]; intros cands cands' Hrun Hlen; cbn [outer_loop] in Hrun.
  - inversion Hrun; subst. exists []. rewrite app_nil_r.
    repeat split; [constructor | intros c [] | lia].
  - destruct (inner a rest cands) as [c1|e] eqn:Hi; cbn [bind] in Hrun; [|discriminate].
    destruct (inner_loop_adds a rest cands c1 Hi Hlen)
      as (news1 & Hc1 & Hsub1 & Hall1 & Hbound1).
    assert (forall c, In c news1 ->
              exists a0 b, In a0 (a :: rest) /\ In b (a :: rest) /\ fst (fst c) = fst a0 /\
                           snd (fst c) = fst b /\ accepted significance a0 b (snd c)) as Hall1'.
    { intros c Hc. destruct (Hall1 c Hc) as (b & Hb & Hn1 & Hn2 & Hacc).
      exists a, b. repeat split; auto; [left; reflexivity | right; exact Hb]. }
    assert (subseq (map fst news1) (map (fun b => (fst a, b)) (map fst rest))) as Hsub1'.
    { rewrite map_map. exact Hsub1. }
    destruct (full max_pairs c1) eqn:Hfull.
    + inversion Hrun; subst cands'. exists news1. repeat split; auto.
      simpl. rewrite <- (app_nil_r (map fst news1)).
      apply subseq_app; [exact Hsub1' | apply subseq_nil_l].
    + apply (proj1 (full_false max_pairs _)) in Hfull.
      destruct (IH c1 cands' Hrun) as (news2 & Hc2 & Hsub2 & Hall2 & Hbound2); [lia|].
      exists (news1 ++ news2). repeat split; auto.
      * rewrite Hc2, Hc1, app_assoc. reflexivity.
      * simpl. rewrite map_app. apply subseq_app; assumption.
      * intros c Hc. apply in_app_or in Hc. destruct Hc as [Hc | Hc]; [auto|].
        destruct (Hall2 c Hc) as (a0 & b & Ha0 & Hb & H).
        exists a0, b. repeat split; try (right; assumption); apply H.
Qed.

(** *** A pass that ends below the cap has kept every accepted pair *)

Lemma accepted_pvalue (a b : string * DataFrame num) (p p' : num) :
  accepted significance a b p -> accepted significance a b p' -> p' = p.
Proof.
  intros (s_a & s_b & Ha & Hb & _ & Hp & _) (s_a' & s_b' & Ha' & Hb' & _ & Hp' & _).
  rewrite Ha in Ha'. inversion Ha'; subst s_a'.
  rewrite Hb in Hb'. inversion Hb'; subst s_b'.
  rewrite Hp, Hp'. reflexivity.
Qed.

Lemma inner_loop_complete (a : string * DataFrame num) (rest : list (string * DataFrame num)) :
  forall cands cands',
    inner a rest cands = Ok cands' ->
    (Z.of_nat (List.length cands') < max_pairs)%Z ->
    (exists news, cands' = cands ++ news) /\
    forall b p, In b rest -> accepted significance a b p ->
                In (fst a, fst b, p) cands'.
Proof.
  induction rest as [|b rest IH]; intros cands cands' Hrun Hlen; cbn [inner_loop] in Hrun.
  - inversion Hrun; subst. split; [exists []; rewrite app_nil_r; reflexivity|].
    intros b p [].
  - destruct (test_pair significance a b cands) as [tested|e] eqn:Ht; cbn [bind] in Hrun;
      [|discriminate].
    destruct (test_pair_returns a b cands tested Ht)
      as [[-> Hno] | [[-> Hno] | (p & -> & Hacc)]].
    + destruct (IH cands cands' Hrun Hlen) as [Hext Hall]. split; [exact Hext|].
      intros b' p' [<- | Hb'] Hacc'; [exfalso; exact (Hno p' Hacc') | auto].
    + destruct (full max_pairs cands) eqn:Hfull.
      * inversion Hrun; subst. apply full_true in Hfull. lia.
      * destruct (IH cands cands' Hrun Hlen) as [Hext Hall]. split; [exact Hext|].
        intros b' p' [<- | Hb'] Hacc'; [exfalso; exact (Hno p' Hacc') | auto].
    + destruct (full max_pairs (cands ++ [(fst a, fst b, p)])) eqn:Hfull.
      * inversion Hrun; subst. apply full_true in Hfull. lia.
      * destruct (IH _ cands' Hrun Hlen) as [[news Hext] Hall]. split.
        -- exists ((fst a, fst b, p) :: news). rewrite Hext, <- app_assoc. reflexivity.
        -- intros b' p' [<- | Hb'] Hacc'; [|auto].
           rewrite (accepted_pvalue _ _ _ _ Hacc Hacc'), Hext.
           apply in_or_app. left. apply in_or_app. right. left. reflexivity.
Qed.

Lemma outer_loop_complete (keys : list (string * DataFrame num)) :
  forall cands cands',
    outer keys cands = Ok cands' ->
    (Z.of_nat (List.length cands') < max_pairs)%Z ->
    (exists news, cands' = cands ++ news) /\
    forall pre a rest b p,
      keys = pre ++ a :: rest -> In b rest -> accepted significance a b p ->
      In (fst a, fst b, p) cands'.
Proof.
  induction keys as [|a0 rest0 IH]; intros cands cands' Hrun Hlen; cbn [outer_loop] in Hrun.
  - inversion Hrun; subst. split; [exists []; rewrite app_nil_r; reflexivity|].
    intros [|x pre] a rest b p Hk; discriminate.
  - destruct (inner a0 rest0 cands) as [c1|e] eqn:Hi; cbn [bind] in Hrun; [|discriminate].
    destruct (full max_pairs c1) eqn:Hfull.
    + inversion Hrun; subst. apply full_true in Hfull. lia.
    + destruct (IH c1 cands' Hrun Hlen) as [[news2 Hext2] Hall2].
      assert (Z.of_nat (List.length c1) < max_pairs)%Z as Hlen1.
      { apply full_false. exact Hfull. }
      destruct (inner_loop_complete a0 rest0 cands c1 Hi Hlen1) as [[news1 Hext1] Hall1].
      split.
      * exists (news1 ++ news2). rewrite Hext2, Hext1, app_assoc. reflexivity.
      * intros [|x pre] a rest b p Hk Hb Hacc; simpl in Hk;
          injection Hk as Hhd Htl.
        -- subst a0 rest0. rewrite Hext2. apply in_or_app. left.
           apply Hall1; assumption.
        -- apply (Hall2 pre a rest b p); auto.
Qed.
End ScanAny.

Section ScanExtras.
Context {num : Type} {NUM : Numeric num} {REG : Regression num}
        {ADF : Stationarity num}.

Lemma find_cointegrated_pairs_adds (data_dict : list (string * DataFrame num))
    (significance : num) (max_pairs : Z) (l : list (Candidate num)) :
  find_cointegrated_pairs data_dict significance max_pairs = Ok l ->
  exists cands,
    l = sort_candidates cands /\
    subseq (map fst cands) (all_pairs (map fst data_dict)) /\
    (forall c, In c cands ->
       exists a b, In a data_dict /\ In b data_dict /\ fst (fst c) = fst a /\
                   snd (fst c) = fst b /\ accepted significance a b (snd c)) /\
    (Z.of_nat (List.length cands) <= Z.max max_pairs 1)%Z.
Proof.
  unfold find_cointegrated_pairs. intros Hfind.
  destruct (outer_loop significance max_pairs data_dict []) as [cands|e] eqn:Ho;
    cbn [bind] in Hfind; [|discriminate].
  inversion Hfind; subst l.
  destruct (outer_loop_adds significance max_pairs data_dict [] cands Ho)
    as (news & Hc & Hsub & Hall & Hbound); [simpl; lia|].
  simpl in Hc. subst news. exists cands. repeat split; auto.
Qed.

(** X6.  A universe of fewer than two instruments has no pair to test: the
    scan returns the empty list and asks no instrument for its prices, so
    it raises nothing even when the one instrument has no price column. *)
Theorem find_cointegrated_pairs_small_universe
    (data_dict : list (string * DataFrame num)) (significance : num) (max_pairs : Z) :
  List.length data_dict <= 1 ->
  find_cointegrated_pairs data_dict significance max_pairs = Ok [].
Proof.
  destruct data_dict as [|a [|b rest]]; simpl; intros Hn; try lia.
  - reflexivity.
  - unfold find_cointegrated_pairs. simpl.
    destruct (full max_pairs []); reflexivity.
Qed.

(** X7.  Whatever the universe and whatever max_pairs, a list the scan
    returns holds only eligible candidates, at most max_pairs of them or
    one if max_pairs is below one, and (when a < b excludes b < a) its
    p-values never decrease from one candidate to the next. *)
Theorem find_cointegrated_pairs_returned {ASYM : Asymmetric num}
    (data_dict : list (string * DataFrame num)) (significance : num) (max_pairs : Z)
    (l : list (Candidate num)) :
  find_cointegrated_pairs data_dict significance max_pairs = Ok l ->
  Forall (eligible data_dict significance) l /\
  (Z.of_nat (List.length l) <= Z.max max_pairs 1)%Z /\
  sorted_by_pvalue l.
Proof.
  intros Hfind.
  destruct (find_cointegrated_pairs_adds data_dict significance max_pairs l Hfind)
    as (cands & -> & _ & Hall & Hbound).
  split; [|split].
  - apply Forall_forall. intros c Hc.
    apply (proj1 (sort_candidates_In cands c)) in Hc.
    destruct (Hall c Hc) as (a & b & Ha & Hb & Hn1 & Hn2 & Hacc).
    destruct c as [[na nb] p]. simpl in *. subst na nb.
    apply accepted_eligible; assumption.
  - rewrite sort_candidates_length. exact Hbound.
  - apply sort_candidates_sorted.
Qed.

(** X8.  The names of every candidate are two keys of the universe, the
    first one before the second in the order of the dict; when the keys
    are distinct no instrument is paired with itself and no pair of names
    is reported twice. *)
Theorem find_cointegrated_pairs_distinct_pairs
    (data_dict : list (string * DataFrame num)) (significance : num) (max_pairs : Z)
    (l : list (Candidate num)) :
  find_cointegrated_pairs data_dict significance max_pairs = Ok l ->
  NoDup (map fst data_dict) ->
  (forall c, In c l ->
     exists pre mid post,
       map fst data_dict = pre ++ fst (fst c) :: mid ++ snd (fst c) :: post) /\
  (forall c, In c l -> fst (fst c) <> snd (fst c)) /\
  NoDup (map fst l).
Proof.
  intros Hfind Hnd.
  destruct (find_cointegrated_pairs_adds data_dict significance max_pairs l Hfind)
    as (cands & -> & Hsub & _ & _).
  assert (forall c, In c (sort_candidates cands) ->
            In (fst c) (all_pairs (map fst data_dict))) as Hin.
  { intros c Hc. apply (proj1 (sort_candidates_In cands c)) in Hc.
    apply (subseq_In _ _ Hsub). apply in_map. exact Hc. }
  split; [|split].
  - intros c Hc. specialize (Hin c Hc). destruct (fst c) as [na nb] eqn:Hn.
    apply all_pairs_In in Hin. exact Hin.
  - intros c Hc. specialize (Hin c Hc). destruct (fst c) as [na nb] eqn:Hn.
    simpl. apply (all_pairs_distinct _ _ _ Hnd Hin).
  - apply NoDup_incl_NoDup with (l := map fst cands).
    + apply (subseq_NoDup _ _ Hsub). apply all_pairs_NoDup. exact Hnd.
    + rewrite !length_map, sort_candidates_length. apply le_n.
    + intros n Hn. apply in_map_iff in Hn. destruct Hn as (c & <- & Hc).
      apply in_map. apply (proj2 (sort_candidates_In cands c)). exact Hc.
Qed.
(** X9.  A scan that returns fewer than max_pairs candidates was not cut
    short: every pair of instruments of the universe, taken in dict order,
    that passes the test (at least 250 aligned observations, p-value below
    the significance level) is in the list it returns. *)
Theorem find_cointegrated_pairs_complete
    (data_dict : list (string * DataFrame num)) (significance : num) (max_pairs : Z)
    (l : list (Candidate num)) :
  find_cointegrated_pairs data_dict significance max_pairs = Ok l ->
  (Z.of_nat (List.length l) < max_pairs)%Z ->
  forall pre a rest b p,
    data_dict = pre ++ a :: rest -> In b rest ->
    accepted significance a b p ->
    In (fst a, fst b, p) l.
Proof.
  unfold find_cointegrated_pairs. intros Hfind Hlen pre a rest b p Hd Hb Hacc.
  destruct (outer_loop significance max_pairs data_dict []) as [cands|e] eqn:Ho;
    cbn [bind] in Hfind; [|discriminate].
  inversion Hfind; subst l. rewrite sort_candidates_length in Hlen.
  apply (proj2 (sort_candidates_In cands _)).
  destruct (outer_loop_complete significance max_pairs data_dict [] cands Ho Hlen)
    as [_ Hall].
  apply (Hall pre a rest b p); assumption.
Qed.
End ScanExtras.


(** ** main, after a scan that found a pair *)

Section MainFacts.
Context {num : Type} {NUM : Numeric num} {MOM : Moments num}
        {REG : Regression num} {ADF : Stationarity num}.

Lemma getitem_In (data : list (string * DataFrame num)) (k : string)
    (df : DataFrame num) :
  NoDup (map fst data) -> In (k, df) data -> getitem data k = Ok df.
Proof.
  induction data as [|[name d] data IH]; intros Hnd Hin; [destruct Hin|].
  simpl in Hnd. inversion Hnd as [|? ? Hnotin Hnd']; subst. simpl.
  destruct Hin as [Heq | Hin].
  - inversion Heq; subst. rewrite String.eqb_refl. reflexivity.
  - destruct (String.eqb_spec k name) as [-> | Hne].
    + exfalso. apply Hnotin. apply in_map_iff. exists (name, df).
      split; [reflexivity | exact Hin].
    + apply IH; assumption.
Qed.

Lemma concat_dropna_subseq (s_a s_b : Series num) :
  subseq (map (fun r => fst (fst r)) (concat_dropna s_a s_b)) (index s_a).
Proof.
  unfold concat_dropna, index.
  induction s_a as [|[t v] s_a IH]; simpl; [constructor|].
  destruct (find (fun r' => Z.eqb (fst r') t) s_b); simpl;
    [apply subseq_keep | apply subseq_skip]; exact IH.
Qed.

Lemma subseq_Forall {A : Type} (P : A -> Prop) (l l' : list A) :
  subseq l l' -> Forall P l' -> Forall P l.
Proof.
  intros H. induction H; intros HP; [constructor | |].
  - inversion HP; auto.
  - inversion HP; subst. constructor; auto.
Qed.

Lemma subseq_sorted (l l' : list Z) :
  subseq l l' -> StronglySorted Z.lt l' -> StronglySorted Z.lt l.
Proof.
  intros H. induction H; intros Hs; [constructor | |].
  - inversion Hs; auto.
  - inversion Hs as [|? ? Hs' Ha]; subst. constructor; [auto|].
    eapply subseq_Forall; eauto.
Qed.

Lemma backtest_pair_lengths (x y : Series num) (cash entry_z exit_z : num) :
  exists r : Backtest num,
    backtest_pair x y cash entry_z exit_z = Ok r /\
    bt_spread r = fst (compute_spread x y) /\
    bt_z r = zscore (bt_spread r) /\
    List.length (tl (bt_pnl r)) = List.length (tl (bt_z r)).
Proof.
  destruct (backtest_pair_defined x y cash entry_z exit_z)
    as (st & r & Hr & Hsp & Hz & _ & _ & Hpnl & Hloop & _).
  exists r. repeat split; auto.
  destruct (loop_adds _ _ _ _ _ _ _ _ Hloop) as (caps & news & Hcaps & _ & Hlen & _).
  rewrite Hpnl, Hcaps. simpl. rewrite Hlen.
  rewrite <- (length_map (fun r0 : Timestamp * num * num => fst (fst r0))).
  rewrite map_tl, Hz, rows_timestamps.
  unfold zscore, series_map, index.
  destruct (bt_spread r); simpl; [reflexivity|]. rewrite !length_map. reflexivity.
Qed.

Lemma combine_index (dates : list Timestamp) (vals : list num) :
  List.length vals = List.length dates ->
  index (combine dates vals) = dates /\ values (combine dates vals) = vals.
Proof.
  unfold index, values. revert vals.
  induction dates as [|d dates IH]; intros [|v vals] Hlen; simpl in *;
    try discriminate; [split; reflexivity|].
  destruct (IH vals) as [Hi Hv]; [lia|]. rewrite Hi, Hv. split; reflexivity.
Qed.

(** X10.  When the keys of the data are distinct and the scan returns a
    non-empty list, the rest of main raises nothing: the two instruments of
    the first candidate are found again with their prices, the backtest
    runs on their aligned frame of at least 250 rows, and the portfolio
    series handed to the plot pairs every capital value after the first
    with the date of its row.  If the price series of the first instrument
    has increasing timestamps, so has the series the backtest ran on. *)
Theorem main_after_scan (data : list (string * DataFrame num))
    (cash significance entry_z exit_z : num)
    (c : Candidate num) (others : list (Candidate num)) :
  NoDup (map fst data) ->
  find_cointegrated_pairs data significance 10 = Ok (c :: others) ->
  exists rep : Report num,
    main_from_data data cash significance entry_z exit_z = Done (Some rep) /\
    rp_pair rep = c /\
    250 <= List.length (bt_z (rp_backtest rep)) /\
    index (rp_portfolio rep) = tl (index (bt_z (rp_backtest rep))) /\
    values (rp_portfolio rep) = tl (bt_pnl (rp_backtest rep)) /\
    exists df_a s_a,
      In (fst (fst c), df_a) data /\ safe_price df_a = Ok s_a /\
      (increasing s_a -> increasing (bt_z (rp_backtest rep))).
Proof.
  intros Hnd Hfind.
  destruct (find_cointegrated_pairs_adds data significance 10 _ Hfind)
    as (cands & Hsorted & _ & Hall & _).
  assert (In c cands) as Hc.
  { apply (proj1 (sort_candidates_In cands c)). rewrite <- Hsorted. left. reflexivity. }
  destruct (Hall c Hc) as ([na dfa] & [nb dfb] & Ha & Hb & Hn1 & Hn2 & Hacc).
  destruct c as [[ca cb] p]. simpl in Hn1, Hn2, Hacc. subst ca cb.
  destruct Hacc as (s_a & s_b & Hsa & Hsb & Hlen & _ & _). simpl in Hsa, Hsb.
  set (frame := concat_dropna s_a s_b) in *.
  set (x := map (fun r : Timestamp * num * num => (fst (fst r), snd (fst r))) frame).
  set (y := map (fun r : Timestamp * num * num => (fst (fst r), snd r)) frame).
  assert (index x = map (fun r : Timestamp * num * num => fst (fst r)) frame) as Hix.
  { unfold x, index. rewrite map_map. reflexivity. }
  assert (aligned x y) as Hal.
  { unfold aligned. rewrite Hix. unfold y, index. rewrite map_map. reflexivity. }
  destruct (backtest_pair_lengths x y cash entry_z exit_z) as (bt & Hbt & Hsp & Hz & Hpl).
  assert (index (bt_z bt) = map (fun r : Timestamp * num * num => fst (fst r)) frame) as Hiz.
  { rewrite Hz, index_zscore, Hsp, index_compute_spread by exact Hal. exact Hix. }
  assert (List.length (tl (bt_pnl bt)) =
          List.length (tl (map (fun r : Timestamp * num * num => fst (fst r)) frame))) as Hl1.
  { rewrite Hpl, <- Hiz. unfold index. rewrite <- map_tl, length_map. reflexivity. }
  assert (List.length (tl (values x)) =
          List.length (tl (map (fun r : Timestamp * num * num => fst (fst r)) frame))) as Hl2.
  { unfold values. rewrite <- !map_tl, !length_map. unfold x. rewrite <- map_tl, length_map.
    reflexivity. }
  eexists. split.
  - unfold main_from_data. destruct data as [|d0 data0]; [destruct Ha|].
    rewrite Hfind. cbn [attempt_of and_then].
    rewrite (getitem_In _ _ _ Hnd Ha). cbn [attempt_of and_then].
    rewrite Hsa. cbn [attempt_of and_then].
    rewrite (getitem_In _ _ _ Hnd Hb). cbn [attempt_of and_then].
    rewrite Hsb. cbn [attempt_of and_then].
    fold frame. fold x. fold y. rewrite Hbt. cbn [attempt_of and_then].
    unfold make_series. rewrite Hl1, Nat.eqb_refl. cbn [and_then].
    rewrite Hl2, Nat.eqb_refl. cbn [and_then]. reflexivity.
  - simpl. split; [reflexivity|]. split.
    { rewrite <- (length_map fst (bt_z bt)). fold (index (bt_z bt)).
      rewrite Hiz, length_map. exact Hlen. }
    destruct (combine_index _ _ Hl1) as [Hci Hcv].
    split; [rewrite Hci, Hiz; reflexivity|]. split; [exact Hcv|].
    exists dfa, s_a. repeat split; auto.
    unfold increasing. rewrite Hiz. apply subseq_sorted.
    apply concat_dropna_subseq.
Qed.
End MainFacts.

(** ** The order of binary64 numbers *)

Lemma SFltb_nan_l (y : spec_float) : SFltb S754_nan y = false.
Proof. reflexivity. Qed.

Lemma SFltb_nan_r (x : spec_float) : SFltb x S754_nan = false.
Proof. destruct x; reflexivity. Qed.

Lemma nan_or_not (x : spec_float) : x = S754_nan \/ x <> S754_nan.
Proof. destruct x; [right | right | left | right]; (reflexivity || discriminate). Qed.

(** Away from NaN the comparison is the lexicographic order of the ranks. *)
Lemma SFltb_rank (x y : spec_float) :
  x <> S754_nan -> y <> S754_nan ->
  (SFltb x y = true <-> rank_below (rank x) (rank y)).
Proof.
  intros Hx Hy. unfold SFltb, SFcompare, rank_below.
  destruct x as [sx | sx | | sx mx ex]; [| |contradiction|];
    (destruct y as [sy | sy | | sy my ey]; [| |contradiction|]);
    try (destruct sx); try (destruct sy); cbn [rank fst snd];
    try (split; [discriminate | intros H; exfalso; lia]);
    try (split; [intros _; lia | reflexivity]).
  - change (Pos.compare_cont Eq mx my) with (Pos.compare mx my).
    destruct (Z.compare_spec ex ey) as [He | He | He];
      [destruct (Pos.compare_spec mx my) as [Hm | Hm | Hm]| |]; cbn [CompOpp];
      (split; [try discriminate; intros _; lia | try reflexivity; intros H; exfalso; lia]).
  - change (Pos.compare_cont Eq mx my) with (Pos.compare mx my).
    destruct (Z.compare_spec ex ey) as [He | He | He];
      [destruct (Pos.compare_spec mx my) as [Hm | Hm | Hm]| |];
      (split; [try discriminate; intros _; lia | try reflexivity; intros H; exfalso; lia]).
Qed.

Lemma SFltb_through (s a b c : spec_float) :
  SFltb b s = true -> SFltb b a = false -> SFltb c b = false -> SFltb c a = false.
Proof.
  intros Hbs Hba Hcb.
  assert (b <> S754_nan) as Hb by (intros ->; discriminate Hbs).
  destruct (nan_or_not a) as [-> | Ha]; [apply SFltb_nan_r|].
  destruct (nan_or_not c) as [-> | Hc]; [apply SFltb_nan_l|].
  apply not_true_iff_false. apply not_true_iff_false in Hba, Hcb.
  rewrite (SFltb_rank c a Hc Ha).
  rewrite (SFltb_rank b a Hb Ha) in Hba. rewrite (SFltb_rank c b Hc Hb) in Hcb.
  unfold rank_below in *.
  destruct (rank a) as [[a1 a2] a3], (rank b) as [[b1 b2] b3],
           (rank c) as [[c1 c2] c3]. cbn [fst snd] in *. lia.
Qed.

Lemma float_ltb_through (s a b c : float) :
  PrimFloat.ltb b s = true -> PrimFloat.ltb b a = false ->
  PrimFloat.ltb c b = false -> PrimFloat.ltb c a = false.
Proof. rewrite !ltb_spec. apply SFltb_through. Qed.

#[global] Instance binary64_comparable : Comparable float := float_ltb_through.

(** ** The first candidate has the smallest p-value *)

Section BestCandidate.
Context {num : Type} {NUM : Numeric num} {REG : Regression num}
        {ADF : Stationarity num}.

Lemma sorted_first_least {CMP : Comparable num} (significance : num)
    (l : list (Candidate num)) :
  forall c,
    sorted_by_pvalue (c :: l) ->
    Forall (fun d => lt (adf_p_of d) significance = true) l ->
    Forall (fun d => lt (adf_p_of d) (adf_p_of c) = false) l.
Proof.
  induction l as [|d l IH]; intros c Hs Hbelow; [constructor|].
  inversion Hs as [|? ? Hs' Hhd]; subst.
  inversion Hhd as [|? ? Hdc]; subst.
  inversion Hbelow as [|? ? Hd Hrest]; subst.
  constructor; [exact Hdc|].
  specialize (IH d Hs' Hrest). rewrite Forall_forall in IH |- *.
  intros e He. apply (lt_through significance _ (adf_p_of d)); auto.
Qed.

(** X11.  The first candidate of the returned list, the one main
    backtests, has a p-value that no other returned candidate is below.  It
    takes two laws of the comparison: a < b excludes b < a, and "not below"
    passes through a number that is below the significance level; binary64
    comparison has both, since a p-value below the significance level is no
    NaN. *)
Theorem find_cointegrated_pairs_best_first
    {ASYM : Asymmetric num} {CMP : Comparable num}
    (data_dict : list (string * DataFrame num)) (significance : num) (max_pairs : Z)
    (c : Candidate num) (others : list (Candidate num)) :
  find_cointegrated_pairs data_dict significance max_pairs = Ok (c :: others) ->
  forall d, In d others -> lt (adf_p_of d) (adf_p_of c) = false.
Proof.
  intros Hfind.
  destruct (find_cointegrated_pairs_adds data_dict significance max_pairs _ Hfind)
    as (cands & Hl & _ & Hacc & _).
  assert (sorted_by_pvalue (c :: others)) as Hs.
  { rewrite Hl. apply sort_candidates_sorted. }
  assert (Forall (fun d => lt (adf_p_of d) significance = true) others) as Hbelow.
  { apply Forall_forall. intros d Hd.
    assert (In d cands) as Hin.
    { apply (proj1 (sort_candidates_In cands d)). rewrite <- Hl. right. exact Hd. }
    destruct (Hacc d Hin) as (a & b & _ & _ & _ & _ & (s_a & s_b & _ & _ & _ & _ & Hlt)).
    exact Hlt. }
  pose proof (sorted_first_least significance others c Hs Hbelow) as Hleast.
  rewrite Forall_forall in Hleast. exact Hleast.
Qed.
End BestCandidate.

(** ** The ledger and the trajectory only grow *)

Section Growth.
Context {num : Type} {NUM : Numeric num} {MOM : Moments num} {REG : Regression num}.

(** X14.  What the loop has recorded after its first k rows is never
    changed afterwards: the ledger and the trajectory of the state reached
    after any k rows are prefixes of the ledger and the trajectory that
    backtest_pair returns. *)
Theorem backtest_pair_append_only
    (x y : Series num) (cash entry_z exit_z : num) (k : nat) :
  exists (r : Backtest num) (st_k : state num) news caps,
    backtest_pair x y cash entry_z exit_z = Ok r /\
    loop (bt_spread r) (bt_z r) cash entry_z exit_z (initial cash)
         (firstn k (tl (rows (bt_spread r) (bt_z r)))) = Ok st_k /\
    bt_trades r = trades st_k ++ news /\
    bt_pnl r = pnl st_k ++ caps /\
    List.length caps = List.length (skipn k (tl (rows (bt_spread r) (bt_z r)))).
Proof.
  destruct (backtest_pair_defined x y cash entry_z exit_z)
    as (st & r & Hr & _ & _ & _ & Htr & Hpnl & Hloop & _).
  destruct (loop_prefix _ _ _ _ _ _ k _ _ Hloop) as (st_k & Hk & Hrest).
  destruct (loop_adds _ _ _ _ _ _ _ _ Hrest) as (caps & news & Hcaps & Hnews & Hlen & _).
  exists r, st_k, news, caps. repeat split; auto; congruence.
Qed.

Lemma ledger_dates_length (l : list (Trade num)) :
  List.length (ledger_dates l) = 2 * List.length l.
Proof.
  induction l as [|tr l IH]; simpl; [reflexivity|]. rewrite IH. lia.
Qed.

(** X15.  On aligned series with increasing timestamps a trade takes two
    rows of its own, one to enter and a later one to exit: the ledger holds
    at most half as many trades as there are rows after the first. *)
Theorem backtest_pair_trade_count
    (x y : Series num) (cash entry_z exit_z : num) :
  aligned x y -> increasing x ->
  exists r : Backtest num,
    backtest_pair x y cash entry_z exit_z = Ok r /\
    2 * List.length (bt_trades r) <= List.length (tl (bt_z r)).
Proof.
  intros Hal Hinc.
  destruct (backtest_pair_ledger_sorted x y cash entry_z exit_z Hal Hinc)
    as (r & Hr & Hsorted).
  destruct (backtest_pair_defined x y cash entry_z exit_z)
    as (st & r' & Hr' & _ & Hz & _ & Htr & _ & Hloop & _).
  rewrite Hr in Hr'. inversion Hr'; subst r'. clear Hr'.
  exists r. split; [exact Hr|].
  destruct (loop_provenance _ _ _ _ _ _ _ Hloop) as [_ Htraced].
  rewrite <- Htr in Htraced. rewrite Forall_forall in Htraced.
  rewrite <- ledger_dates_length.
  rewrite <- (length_map fst (tl (bt_z r))).
  apply NoDup_incl_length; [apply sorted_NoDup; exact Hsorted|].
  intros d Hd. unfold ledger_dates in Hd. apply in_flat_map in Hd.
  destruct Hd as (tr & Hin & Hd).
  destruct (Htraced tr Hin)
    as (pre & r_in & mid & r_out & post & Hrs & Hed & _ & _ & _ & Hxd & _).
  assert (forall row, In row (tl (rows (bt_spread r) (bt_z r))) ->
                      In (fst (fst row)) (map fst (tl (bt_z r)))) as Hrow.
  { intros row Hrow. rewrite Hz in Hrow. apply rows_tl_in in Hrow.
    rewrite <- Hz in Hrow. apply in_map_iff.
    exists (fst (fst row), snd row). split; [reflexivity | exact Hrow]. }
  destruct Hd as [<- | [<- | []]].
  - rewrite Hed. apply Hrow. rewrite Hrs. apply in_or_app. right. left. reflexivity.
  - rewrite Hxd. apply Hrow. rewrite Hrs. apply in_or_app. right. right.
    apply in_or_app. right. left. reflexivity.
Qed.
End Growth.

(** * Further worked examples *)

Module MoreExamples.
Import Vectors Vectors2.

Lemma long_universe_scan (max_pairs : Z) :
  (max_pairs = 1 \/ max_pairs = 10)%Z ->
  find_cointegrated_pairs (ADF := oracle 0.0078125%float)
                          long_universe significance0 max_pairs = Ok [found].
Proof. intros [-> | ->]; vm_compute; reflexivity. Qed.

Lemma long_universe_keys : NoDup (map fst long_universe).
Proof.
  simpl. repeat constructor; simpl; intuition discriminate.
Qed.

(** X2 at the constant-spread pair: all its z-scores are NaN. *)
Lemma backtest_pair_never_triggered_witness :
  exists r : Backtest float,
    backtest_pair demo_x flat_y cash0 entry0 exit0 = Ok r /\
    bt_trades r = [] /\
    bt_pnl r = cash0 :: repeat cash0 (List.length (tl (bt_z r))).
Proof.
  refine (backtest_pair_never_triggered demo_x flat_y cash0 entry0 exit0 _).
  vm_compute. repeat constructor.
Defined.

(** X3 at the six-day pair. *)
Lemma backtest_pair_recorded_z_scores_witness :
  exists r : Backtest float,
    backtest_pair demo_x demo_y cash0 entry0 exit0 = Ok r /\
    forall tr, In tr (bt_trades r) ->
      exists z_in,
        tr_entry_z tr = Scalar z_in /\
        In (tr_entry_date tr, z_in) (tl (bt_z r)) /\
        entry_rule entry0 (tr_position tr) z_in /\
        In (tr_exit_date tr, tr_exit_z tr) (tl (bt_z r)) /\
        exit_test exit0 (tr_position tr) (tr_exit_z tr) = true.
Proof.
  exact (backtest_pair_recorded_z_scores demo_x demo_y cash0 entry0 exit0
           Examples.demo_aligned Examples.demo_increasing).
Defined.

(** Names beyond ASCII: a no-break space (U+00A0) and a next-line mark
    (U+0085) are stripped, and a capital E with acute accent (U+00C9) is
    lower-cased to U+00E9. *)
Example latin1_names :
  strip (lower (String (ascii_of_nat 160) ("Adj Close" ++ String (ascii_of_nat 133) "")))
    = "adj close"%string /\
  lower (String (ascii_of_nat 201) "") = String (ascii_of_nat 233) "" /\
  exists s,
    safe_price (num := float)
      [(String (ascii_of_nat 160) "CLOSE", [(1%Z, Some 2%float); (2%Z, None)])]
      = Ok s /\ s = [(1%Z, 2%float)].
Proof.
  split; [reflexivity|]. split; [reflexivity|].
  eexists. split; reflexivity.
Qed.

(** X6 at the universe of one instrument without a price column. *)
Lemma find_cointegrated_pairs_small_universe_witness :
  find_cointegrated_pairs (ADF := oracle 0.0078125%float)
    [("C"%string, no_price_frame)] significance0 10 = Ok [].
Proof.
  refine (find_cointegrated_pairs_small_universe (ADF := oracle 0.0078125%float)
            [("C"%string, no_price_frame)] significance0 10 _).
  simpl. lia.
Defined.

Lemma wide_universe_found :
  find_cointegrated_pairs (ADF := residual_oracle) wide_universe significance0 10
    = Ok [found_ac; found_bc; found_ab].
Proof. vm_compute. reflexivity. Qed.

Lemma wide_universe_keys : NoDup (map fst wide_universe).
Proof.
  simpl. repeat constructor; simpl; intuition discriminate.
Qed.

(** X7 at the universe of three instruments, in binary64: three
    candidates. *)
Lemma find_cointegrated_pairs_returned_witness :
  Forall (eligible (ADF := residual_oracle) wide_universe significance0)
         [found_ac; found_bc; found_ab] /\
  (Z.of_nat (List.length [found_ac; found_bc; found_ab]) <= Z.max 10 1)%Z /\
  sorted_by_pvalue [found_ac; found_bc; found_ab].
Proof.
  exact (find_cointegrated_pairs_returned (ADF := residual_oracle)
           wide_universe significance0 10 [found_ac; found_bc; found_ab]
           wide_universe_found).
Defined.

(** X8 at the same universe. *)
Lemma find_cointegrated_pairs_distinct_pairs_witness :
  (forall c, In c [found_ac; found_bc; found_ab] ->
     exists pre mid post,
       map fst wide_universe = pre ++ fst (fst c) :: mid ++ snd (fst c) :: post) /\
  (forall c, In c [found_ac; found_bc; found_ab] -> fst (fst c) <> snd (fst c)) /\
  NoDup (map fst [found_ac; found_bc; found_ab]).
Proof.
  exact (find_cointegrated_pairs_distinct_pairs (ADF := residual_oracle)
           wide_universe significance0 10 [found_ac; found_bc; found_ab]
           wide_universe_found wide_universe_keys).
Defined.

Lemma long_universe_accepted :
  accepted (ADF := oracle 0.0078125%float) significance0
           (nth 0 long_universe (""%string, [])) (nth 1 long_universe (""%string, []))
           0.0078125%float.
Proof.
  unfold accepted. eexists. eexists.
  split; [vm_compute; reflexivity|]. split; [vm_compute; reflexivity|].
  split; [vm_compute; apply le_n|]. split; reflexivity.
Qed.

(** X9 at the universe of two instruments: one candidate, below the cap
    of 10. *)
Lemma find_cointegrated_pairs_complete_witness :
  In found [found].
Proof.
  refine (find_cointegrated_pairs_complete (ADF := oracle 0.0078125%float)
            long_universe significance0 10 [found]
            (long_universe_scan 10 (or_intror eq_refl)) _
            [] (nth 0 long_universe (""%string, []))
            [nth 1 long_universe (""%string, [])]
            (nth 1 long_universe (""%string, [])) 0.0078125%float
            eq_refl (or_introl eq_refl) long_universe_accepted).
  simpl. lia.
Defined.

(** X10 at the universe of two instruments. *)
Lemma main_after_scan_witness :
  exists rep : Report float,
    main_from_data (ADF := oracle 0.0078125%float)
                   long_universe cash0 significance0 entry0 exit0 = Done (Some rep) /\
    rp_pair rep = found /\
    250 <= List.length (bt_z (rp_backtest rep)).
Proof.
  destruct (main_after_scan (ADF := oracle 0.0078125%float)
              long_universe cash0 significance0 entry0 exit0 found []
              long_universe_keys (long_universe_scan 10 (or_intror eq_refl)))
    as (rep & Hmain & Hpair & Hlen & _).
  exists rep. repeat split; assumption.
Defined.

(** X11 at three instruments in binary64: three candidates with three
    different p-values, the first one below the two others. *)
Lemma find_cointegrated_pairs_best_first_witness :
  lt (adf_p_of found_bc) (adf_p_of found_ac) = false /\
  lt (adf_p_of found_ab) (adf_p_of found_ac) = false.
Proof.
  pose proof (find_cointegrated_pairs_best_first (ADF := residual_oracle)
                wide_universe significance0 10 found_ac [found_bc; found_ab]
                wide_universe_found) as H.
  split; apply H; simpl; auto.
Defined.

(** X15 at the six-day pair. *)
Lemma backtest_pair_trade_count_witness :
  exists r : Backtest float,
    backtest_pair demo_x demo_y cash0 entry0 exit0 = Ok r /\
    2 * List.length (bt_trades r) <= List.length (tl (bt_z r)).
Proof.
  exact (backtest_pair_trade_count demo_x demo_y cash0 entry0 exit0
           Examples.demo_aligned Examples.demo_increasing).
Defined.
End MoreExamples.



